(** * quorabroker: the fetch / extract / persist pipeline of [main.py],
      the settings models of [config.py] and the selector parser of
      [parser.py], embedded as executable definitions.

    Conventions of the embedding
    - a Python [dict] with string keys is a [gmap string pyval];
    - a call that may raise returns a [result]: [Return v] or [Raise e];
    - [except Exception] catches exactly the classes for which
      [is_Exception] holds (asyncio's [CancelledError], [KeyboardInterrupt],
      [SystemExit] and [GeneratorExit] derive from [BaseException] only);
    - Python floats are exact rationals ([Q]); readings of the clock, the
      bytes of [os.urandom], the network and the browser are inputs;
    - the logger is a [LoggerLike]: its three methods take keyword fields
      and return, and a call is recorded as a [log_entry]. *)

From Stdlib Require Import ZArith QArith Qround Lia Ascii String Strings.Byte.

Set Warnings "-register-all".
From stdpp Require Import base strings list gmap.

Local Open Scope string_scope.
Local Open Scope Z_scope.

(** ** Python values, exceptions, logging *)

Module Py.

Inductive exc_class : Type :=
  | ConnectError            (* httpx transport failure *)
  | TimeoutException        (* httpx timeout *)
  | ProtocolError           (* httpx protocol violation *)
  | UnicodeDecodeError
  | JSONDecodeError
  | ValidationError         (* pydantic *)
  | TypeError
  | AttributeError
  | ValueError
  | WebDriverException      (* selenium *)
  | DuplicateKeyError       (* pymongo *)
  | OtherException (name : string)
  | CancelledError
  | KeyboardInterrupt
  | SystemExit
  | GeneratorExit.

(** [isinstance(exc, Exception)] *)
Definition is_Exception (c : exc_class) : bool :=
  match c with
  | CancelledError | KeyboardInterrupt | SystemExit | GeneratorExit => false
  | _ => true
  end.

Record exn : Type := Exn { exc_cls : exc_class; exc_str : string }.

Inductive result (A : Type) : Type :=
  | Return (a : A)
  | Raise (e : exn).
Arguments Return {A} a.
Arguments Raise {A} e.

Inductive pyval : Type :=
  | VNone
  | VBool (b : bool)
  | VInt (z : Z)
  | VFloat (q : Q)
  | VStr (s : string)
  | VDict (kv : list (string * pyval)).

(** Python truthiness, as used by [x or y], [if x] and [x and y]. *)
Definition truthy (v : pyval) : bool :=
  match v with
  | VNone => false
  | VBool b => b
  | VInt z => negb (z =? 0)
  | VFloat q => negb (Qeq_bool q 0)
  | VStr s => negb (String.eqb s "")
  | VDict kv => match kv with [] => false | _ => true end
  end.

Definition of_opt_str (o : option string) : pyval :=
  match o with Some s => VStr s | None => VNone end.

Definition of_opt_int (o : option Z) : pyval :=
  match o with Some z => VInt z | None => VNone end.

(** [o or default] for an [Optional[str]] *)
Definition str_or (o : option string) (default : string) : string :=
  match o with
  | Some s => if String.eqb s "" then default else s
  | None => default
  end.

Inductive level : Type := INFO | WARNING | ERROR.

Record log_entry : Type :=
  LogEntry { log_level : level; log_event : string; log_fields : list (string * pyval) }.

(** [bytes.hex()]: two lowercase hexadecimal digits per byte. *)
Definition hex_digit (n : N) : ascii :=
  match n with
  | 0 => "0" | 1 => "1" | 2 => "2" | 3 => "3" | 4 => "4" | 5 => "5"
  | 6 => "6" | 7 => "7" | 8 => "8" | 9 => "9" | 10 => "a" | 11 => "b"
  | 12 => "c" | 13 => "d" | 14 => "e" | _ => "f"
  end%N%char.

Fixpoint hex (bs : list byte) : string :=
  match bs with
  | [] => ""
  | b :: bs' =>
      let n := Byte.to_N b in
      String (hex_digit (n / 16)) (String (hex_digit (n mod 16)) (hex bs'))
  end.

Definition is_hex_char (c : ascii) : bool :=
  existsb (Ascii.eqb c) (list_ascii_of_string "0123456789abcdef").

(** [round(x, 2)]: nearest multiple of 1/100, ties to the even one. *)
Definition round_half_even (x : Q) : Z :=
  let f := Qfloor x in
  match Qcompare (x - inject_Z f) (1 # 2) with
  | Lt => f
  | Gt => f + 1
  | Eq => if Z.even f then f else f + 1
  end.

Definition round2 (x : Q) : Q := Qmake (round_half_even (x * 100)) 100.

(** [int(x)] on a float: truncation towards zero *)
Definition int_of_float (x : Q) : Z := Z.quot (Qnum x) (Zpos (Qden x)).

(** [needle in haystack] on strings *)
Definition str_in (needle haystack : string) : bool :=
  match String.index 0 needle haystack with Some _ => true | None => false end.

(** [str.isspace] on the ASCII range *)
Definition is_space (c : ascii) : bool :=
  let n := nat_of_ascii c in
  ((9 <=? n) && (n <=? 13) || (28 <=? n) && (n <=? 32))%nat.

Fixpoint lstrip (s : string) : string :=
  match s with
  | String c s' => if is_space c then lstrip s' else s
  | EmptyString => EmptyString
  end.

Fixpoint rstrip (s : string) : string :=
  match s with
  | String c s' =>
      match rstrip s' with
      | EmptyString => if is_space c then EmptyString else String c EmptyString
      | r => String c r
      end
  | EmptyString => EmptyString
  end.

(** [str.strip()] *)
Definition strip (s : string) : string := rstrip (lstrip s).

Definition upper_char (c : ascii) : ascii :=
  let n := nat_of_ascii c in
  if ((97 <=? n) && (n <=? 122))%nat then ascii_of_nat (n - 32) else c.

Definition lower_char (c : ascii) : ascii :=
  let n := nat_of_ascii c in
  if ((65 <=? n) && (n <=? 90))%nat then ascii_of_nat (n + 32) else c.

Fixpoint map_string (f : ascii -> ascii) (s : string) : string :=
  match s with
  | String c s' => String (f c) (map_string f s')
  | EmptyString => EmptyString
  end.

Definition upper : string -> string := map_string upper_char.
Definition lower : string -> string := map_string lower_char.

(** [sep.join(parts)] *)
Fixpoint join (sep : string) (parts : list string) : string :=
  match parts with
  | [] => ""
  | [p] => p
  | p :: ps => p ++ sep ++ join sep ps
  end.

(** Decimal literals.  [int] and [float] are modelled on optionally signed
    decimal numerals with surrounding blanks stripped; the other spellings
    Python accepts (exponents, [inf], [nan], digit-group underscores) are
    outside the model and read as malformed. *)
Definition digit_val (c : ascii) : option Z :=
  let n := nat_of_ascii c in
  if ((48 <=? n) && (n <=? 57))%nat then Some (Z.of_nat n - 48) else None.

(** reads a run of digits: value so far, number of digits read, the rest *)
Fixpoint read_digits (acc : Z) (k : nat) (s : string) : Z * nat * string :=
  match s with
  | String c s' =>
      match digit_val c with
      | Some d => read_digits (10 * acc + d) (S k) s'
      | None => (acc, k, s)
      end
  | EmptyString => (acc, k, s)
  end.

Definition read_sign (s : string) : bool * string :=
  match s with
  | String "-" s' => (true, s')
  | String "+" s' => (false, s')
  | _ => (false, s)
  end.

Definition value_error (what s : string) : exn :=
  Exn ValueError (what ++ s).

Definition parse_int (s : string) : result Z :=
  let '(neg, body) := read_sign (strip s) in
  match read_digits 0 0 body with
  | (_, O, _) => Raise (value_error "invalid literal for int() with base 10: " s)
  | (n, _, EmptyString) => Return (if neg then - n else n)
  | _ => Raise (value_error "invalid literal for int() with base 10: " s)
  end.

Definition parse_float (s : string) : result Q :=
  let bad := Raise (value_error "could not convert string to float: " s) in
  let '(neg, body) := read_sign (strip s) in
  let '(ip, ik, rest) := read_digits 0 0 body in
  let signed (q : Q) := if neg then Qopp q else q in
  match rest with
  | EmptyString =>
      match ik with O => bad | _ => Return (signed (inject_Z ip)) end
  | String "." frac =>
      let '(fp, fk, rest') := read_digits 0 0 frac in
      match rest', (ik + fk)%nat with
      | EmptyString, S _ =>
          Return (signed (Qmake (ip * 10 ^ Z.of_nat fk + fp) (Z.to_pos (10 ^ Z.of_nat fk))))
      | _, _ => bad
      end
  | _ => bad
  end.

End Py.
Import Py.

(** ** [main.py]: configuration and task model *)

Record Config : Type := mkConfig {
  kafka_bootstrap_servers : string;
  kafka_topic : string;
  mongo_uri : option string;
  mongo_db : string;
  mongo_collection : string;
  http_timeout_seconds : Q;
  max_concurrent_fetches : Z;
  user_agent : string;
  cfg_log_level : string
}.

(** [os.environ] *)
Abbreviation environ := (gmap string string).

(** [os.getenv(k) or default] *)
Definition getenv_or (env : environ) (k default : string) : string :=
  str_or (env !! k) default.

(** [os.getenv(k, default)] *)
Definition getenv_default (env : environ) (k default : string) : string :=
  match env !! k with Some v => v | None => default end.

(** [os.getenv(k) or None] *)
Definition getenv_or_None (env : environ) (k : string) : option string :=
  match env !! k with
  | Some v => if String.eqb v "" then None else Some v
  | None => None
  end.

(** [Config.load] of [main.py].  A variable that is unset or empty falls
    back to the class attribute, read here as the default the class
    declares; [float(...)] and [int(...)] are evaluated while the [values]
    dict is built, the float first.  No field of [Config] carries a
    constraint, so [cls( **values )] accepts every well-typed dict. *)
Definition Config_load (env : environ) : result Config :=
  let timeout :=
    match getenv_or_None env "HTTP_TIMEOUT_SECONDS" with
    | Some s => parse_float s
    | None => Return 15%Q
    end in
  let fetches :=
    match getenv_or_None env "MAX_CONCURRENT_FETCHES" with
    | Some s => parse_int s
    | None => Return 10
    end in
  match timeout with
  | Raise e => Raise e
  | Return t =>
      match fetches with
      | Raise e => Raise e
      | Return n =>
          Return {|
            kafka_bootstrap_servers := getenv_or env "KAFKA_BOOTSTRAP_SERVERS" "localhost:9092";
            kafka_topic := getenv_or env "KAFKA_TOPIC" "quora.fetch.requests";
            mongo_uri := getenv_or_None env "MONGO_URI";
            mongo_db := getenv_or env "MONGO_DB" "quorabroker";
            mongo_collection := getenv_or env "MONGO_COLLECTION" "pages";
            http_timeout_seconds := t;
            max_concurrent_fetches := n;
            user_agent := getenv_or env "USER_AGENT" "quorabroker/0.1";
            cfg_log_level := upper (getenv_or env "LOG_LEVEL" "INFO")
          |}
      end
  end.

(** ** [config.py]: the shared settings model *)

Module Settings.

Record t : Type := mk {
  kafka_bootstrap_servers : string;
  request_topic : string;
  parsed_topic : string;
  mongo_uri : option string;
  mongo_db : string;
  mongo_collection : string;
  http_timeout_seconds : Q;
  user_agent : string;
  enable_browser : bool;
  log_level : string
}.

(** [Field(default=20.0, gt=0, le=300)] *)
Definition timeout_ok (x : Q) : bool := negb (Qle_bool x 0) && Qle_bool x 300.

(** the model's constructor: pydantic validates the one constrained field *)
Definition validate (s : t) : result t :=
  if timeout_ok (http_timeout_seconds s) then Return s
  else Raise (Exn ValidationError "http_timeout_seconds").

Definition load (env : environ) : result t :=
  match parse_float (getenv_default env "HTTP_TIMEOUT_SECONDS" "20.0") with
  | Raise e => Raise e
  | Return x =>
      validate {|
        kafka_bootstrap_servers := getenv_default env "KAFKA_BOOTSTRAP_SERVERS" "localhost:9092";
        request_topic := getenv_default env "REQUEST_TOPIC" "quora.fetch.requests";
        parsed_topic := getenv_default env "PARSED_TOPIC" "quora.fetch.parsed";
        mongo_uri := getenv_or_None env "MONGO_URI";
        mongo_db := getenv_default env "MONGO_DB" "quorabroker";
        mongo_collection := getenv_default env "MONGO_COLLECTION" "pages";
        http_timeout_seconds := x;
        user_agent := getenv_default env "USER_AGENT" "quorabroker/0.1";
        enable_browser := String.eqb (lower (getenv_default env "ENABLE_BROWSER" "false")) "true";
        log_level := upper (getenv_default env "LOG_LEVEL" "INFO")
      |}
  end.

End Settings.

Record FetchTask : Type := mkFetchTask {
  url : string;                (* the validated HttpUrl, as [str(task.url)] *)
  id : option string;
  priority : option Z
}.

(** [PageDocument] is a [TypedDict]: a plain dict at run time. *)
Abbreviation PageDocument := (gmap string pyval).

(** ** [main.py]: Fetcher *)

Module Fetcher.

Record response : Type := mkResponse {
  status_code : Z;
  content : list byte;
  text : string
}.

(** Everything one call of [fetch] reads from outside the program. *)
Record world : Type := mkWorld {
  perf_started : Q;                 (* time.perf_counter() on entry *)
  perf_finished : Q;                (* time.perf_counter() after the await *)
  entropy : nat -> byte;            (* the bytes os.urandom hands out *)
  gmtime : string;                  (* time.strftime(..., time.gmtime()) *)
  get : result response             (* await self._client.get(str(task.url)) *)
}.

(** [__init__]: the shared client and the two settings it is built from *)
Record client : Type := mkClient { timeout : Q; headers : list (string * string) }.

Definition init (cfg : Config) : client :=
  mkClient (http_timeout_seconds cfg) [("User-Agent", user_agent cfg)].

Definition os_urandom (w : world) (n : nat) : list byte := map (entropy w) (seq 0 n).

Definition latency_ms (w : world) : Q := (perf_finished w - perf_started w) * 1000.

Definition fetch (w : world) (task : FetchTask) : result PageDocument * list log_entry :=
  match get w with
  | Return resp =>
      (Return (list_to_map
         [ ("_id", VStr (str_or (id task) (hex (os_urandom w 8))));
           ("url", VStr (url task));
           ("status_code", VInt (status_code resp));
           ("fetched_at", VStr (gmtime w));
           ("latency_ms", VFloat (round2 (latency_ms w)));
           ("content_length", VInt (Z.of_nat (length (content resp))));
           ("html", VStr (text resp));
           ("error", VNone);
           ("meta", VDict [("priority", of_opt_int (priority task))]) ]), [])
  | Raise exc =>
      if is_Exception (exc_cls exc) then
        (Return (list_to_map
           [ ("_id", VStr (str_or (id task) (hex (os_urandom w 8))));
             ("url", VStr (url task));
             ("status_code", VNone);
             ("fetched_at", VStr (gmtime w));
             ("latency_ms", VFloat (round2 (latency_ms w)));
             ("content_length", VInt 0);
             ("html", VNone);
             ("error", VStr (exc_str exc));
             ("meta", VDict [("priority", of_opt_int (priority task))]) ]),
         [ LogEntry ERROR "fetch_failed"
             [("url", VStr (url task)); ("error", VStr (exc_str exc))] ])
      else (Raise exc, [])
  end.

End Fetcher.


(** ** [main.py]: BrowserWorker *)

Module BrowserWorker.

(** What the Selenium driver shows during one call of [extract].  An element
    is [None] when [find_element] raised (swallowed by [_safe_find_css]);
    otherwise it carries the outcome of reading its [.text]. *)
Record session : Type := mkSession {
  perf_start : Q;
  perf_end : Q;
  driver_get : result unit;
  question_el : option (result string);
  answer_el : option (result string)
}.

Definition result_dict (q a : option string) : gmap string pyval :=
  <["question" := of_opt_str q]> (<["answer" := of_opt_str a]> ∅).

Definition extracted_log (s : session) (url : string) (q a : option string) : log_entry :=
  LogEntry INFO "selenium_extracted"
    [ ("url", VStr url);
      ("latency_ms", VInt (int_of_float ((perf_end s - perf_start s) * 1000)));
      ("have_question", VBool (truthy (of_opt_str q)));
      ("have_answer", VBool (truthy (of_opt_str a))) ].

Definition extract (s : session) (url : string)
  : result (gmap string pyval) * list log_entry :=
  match driver_get s with
  | Raise e => (Raise e, [])                      (* outside the try *)
  | Return _ =>
      let '(q, a, raised) :=
        match question_el s with
        | Some (Raise e) => (None, None, Some e)
        | q_el =>
            let q := match q_el with Some (Return t) => Some (strip t) | _ => None end in
            match answer_el s with
            | Some (Raise e) => (q, None, Some e)
            | Some (Return t) => (q, Some (strip t), None)
            | None => (q, None, None)
            end
        end in
      match raised with
      | None => (Return (result_dict q a), [extracted_log s url q a])
      | Some e =>
          if is_Exception (exc_cls e) then
            (Return (result_dict q a),
             [ LogEntry WARNING "selenium_extract_issue" [("error", VStr (exc_str e))];
               extracted_log s url q a ])
          else (Raise e, [extracted_log s url q a])
      end
  end.

End BrowserWorker.

(** ** [main.py]: MongoStore *)

Module MongoStore.

(** [_collection]: [None] when persistence is disabled, otherwise the
    documents this process has inserted. *)
Record t : Type := mk { collection : option (list PageDocument) }.

(** [__init__]; [motor] says whether [AsyncIOMotorClient] could be imported. *)
Definition init (cfg : Config) (motor : bool) : t * list log_entry :=
  if truthy (of_opt_str (mongo_uri cfg)) && motor then (mk (Some []), [])
  else (mk None,
        [LogEntry WARNING "Mongo not configured or motor missing; persistence disabled" []]).

(** [save_page]; [driver] is what the Motor collection answers (its truth
    test and [insert_one]) and is consulted only when a collection exists. *)
Definition save_page (st : t) (driver : result unit) (doc : PageDocument) : result unit * t :=
  match collection st with
  | None => (Return tt, st)
  | Some docs =>
      match driver with
      | Return _ => (Return tt, mk (Some (docs ++ [doc])%list))
      | Raise e => (Raise e, st)
      end
  end.

End MongoStore.

(** ** [main.py]: KafkaConsumerWrapper *)

Module KafkaConsumerWrapper.

Record message : Type := mkMessage { value : option (list byte) }.

Definition sample_urls : list string :=
  [ "https://example.org"; "https://www.python.org" ].

(** [FetchTask(url=u)]: both literals are absolute http URLs, which the
    [HttpUrl] field accepts; [id] and [priority] take their defaults. *)
Definition synthetic_task (u : string) : FetchTask := mkFetchTask u None None.

(** How one turn of the generator ends. *)
Inductive gen_out : Type :=
  | Yield (task : FetchTask)
  | Skip (l : log_entry)          (* logged; back to [getone] *)
  | Stop                          (* the generator returns *)
  | Throw (e : exn).

Inductive ending : Type :=
  | Returned                      (* StopAsyncIteration *)
  | Pending                       (* suspended in [getone] *)
  | Thrown (e : exn).

Section Codec.
(** The two library calls of the deserialisation:
    [json.loads(bytes.decode("utf-8"))] and [FetchTask( **payload )]. *)
Context {payload : Type}.
Variable json_loads : list byte -> result payload.
Variable FetchTask_validate : payload -> result FetchTask.

Definition deserialize (msg : message) : result FetchTask :=
  match value msg with
  | None => Raise (Exn AttributeError "'NoneType' object has no attribute 'decode'")
  | Some bs =>
      match json_loads bs with
      | Raise e => Raise e
      | Return p => FetchTask_validate p
      end
  end.

(** After an exception [e] that the inner handler did not take. *)
Definition outer_handler (e : exn) : gen_out :=
  match exc_cls e with
  | CancelledError => Stop
  | _ => Throw e
  end.

(** One turn of [while True], given what [getone()] produced. *)
Definition on_getone (r : result message) : gen_out :=
  match r with
  | Raise e => outer_handler e
  | Return msg =>
      match deserialize msg with
      | Return task => Yield task
      | Raise e =>
          if is_Exception (exc_cls e)
          then Skip (LogEntry ERROR "invalid_message" [("error", VStr (exc_str e))])
          else outer_handler e
      end
  end.

(** The live branch of [get_tasks], run against the outcomes of the
    successive [getone()] calls. *)
Fixpoint get_tasks_live (feed : list (result message))
  : list FetchTask * list log_entry * ending :=
  match feed with
  | [] => ([], [], Pending)
  | r :: feed' =>
      match on_getone r with
      | Yield task =>
          let '(ts, ls, e) := get_tasks_live feed' in (task :: ts, ls, e)
      | Skip l =>
          let '(ts, ls, e) := get_tasks_live feed' in (ts, l :: ls, e)
      | Stop => ([], [], Returned)
      | Throw e => ([], [], Thrown e)
      end
  end.

(** [get_tasks]: everything the generator yields and logs, and how it
    ends, when its consumer keeps asking. *)
Definition get_tasks (consumer : bool) (feed : list (result message))
  : list FetchTask * list log_entry * ending :=
  if consumer then get_tasks_live feed
  else (map synthetic_task sample_urls, [], Returned).

End Codec.

End KafkaConsumerWrapper.

(** ** [main.py]: [run] and its [worker], as a machine driven by the
    completions of the awaits it is suspended on and by OS signals *)

Module Run.
Import KafkaConsumerWrapper.

Inductive stage : Type := TaskSource | FetchStage | PersistenceStage | ExtractionStage.

(** What a run leaves behind: the log lines of the source, and markers for
    the calls that carry no log line. *)
Inductive obs : Type :=
  | Log (e : log_entry)
  | ShutdownSet                      (* shutdown_event.set() *)
  | Enter (task : FetchTask)         (* the generator hands [task] to the loop body *)
  | Persist (doc : PageDocument)     (* store.save_page(doc) is called *)
  | Leave (task : FetchTask)         (* the loop body of [task] is over *)
  | Close (s : stage).               (* stop() / close() of a stage *)

Inductive phase : Type :=
  | AwaitingGetone                   (* worker suspended in the generator's getone() *)
  | AwaitingSleep                    (* ... in the generator's asyncio.sleep(0.5) *)
  | InFlight (task : FetchTask)      (* ... in the loop body, at fetch *)
  | Exited (r : result Z).           (* run() returned or raised *)

Record state : Type := mkState {
  cfg : Config;
  consumer : bool;                   (* consumer._consumer is not None *)
  samples : list string;             (* what [for u in sample_urls] has left *)
  browser_worker : bool;             (* browser_worker is not None *)
  store : MongoStore.t;
  shutdown_event : bool;
  now : phase;
  trace : list obs
}.

Inductive event : Type :=
  | Signal (name : string)           (* SIGINT / SIGTERM handler runs *)
  | GetoneDone (r : result message)  (* completion of getone() *)
  | SleepDone                        (* completion of asyncio.sleep(0.5) *)
  | TaskDone (w : Fetcher.world) (b : BrowserWorker.session) (s : result unit).
      (* completion of the awaits of the loop body: the HTTP exchange, what
         the browser shows if it is asked, what the store driver answers *)

Definition set_now (p : phase) (st : state) : state :=
  mkState (cfg st) (consumer st) (samples st) (browser_worker st) (store st)
          (shutdown_event st) p (trace st).

Definition set_samples (l : list string) (st : state) : state :=
  mkState (cfg st) (consumer st) l (browser_worker st) (store st)
          (shutdown_event st) (now st) (trace st).

Definition set_store (s : MongoStore.t) (st : state) : state :=
  mkState (cfg st) (consumer st) (samples st) (browser_worker st) s
          (shutdown_event st) (now st) (trace st).

Definition set_shutdown (st : state) : state :=
  mkState (cfg st) (consumer st) (samples st) (browser_worker st) (store st)
          true (now st) (trace st).

Definition set_cfg (c : Config) (st : state) : state :=
  mkState c (consumer st) (samples st) (browser_worker st) (store st)
          (shutdown_event st) (now st) (trace st).

Definition emit (os : list obs) (st : state) : state :=
  mkState (cfg st) (consumer st) (samples st) (browser_worker st) (store st)
          (shutdown_event st) (now st) (trace st ++ os)%list.

(** [page_doc.get(k)] *)
Definition doc_get (doc : PageDocument) (k : string) : pyval :=
  match doc !! k with Some v => v | None => VNone end.

(** [needle in page_doc[k]] *)
Definition doc_contains (doc : PageDocument) (k needle : string) : bool :=
  match doc !! k with Some (VStr s) => str_in needle s | _ => false end.

Definition doc_url (doc : PageDocument) : string :=
  match doc !! "url" with Some (VStr s) => s | _ => "" end.

(** [page_doc.update(extracted)] *)
Definition update (doc extracted : gmap string pyval) : gmap string pyval :=
  extracted ∪ doc.

(** The [finally] block of [run]. *)
Definition cleanup (st : state) : list obs :=
  ([Close TaskSource]
   ++ (if consumer st then [Log (LogEntry INFO "kafka_consumer_stopped" [])] else [])
   ++ [Close FetchStage; Close PersistenceStage]
   ++ (if browser_worker st then [Close ExtractionStage] else [])
   ++ [Log (LogEntry INFO "service_stopped" [])])%list.

Definition finish (r : result Z) (st : state) : state :=
  set_now (Exited r) (emit (cleanup st) st).

Definition take_up (task : FetchTask) (st : state) : state :=
  set_now (InFlight task) (emit [Enter task] st).

(** The head of [async for task in consumer.get_tasks()]. *)
Definition pull (st : state) : state :=
  if consumer st then set_now AwaitingGetone st
  else match samples st with
       | u :: rest => take_up (synthetic_task u) (set_samples rest st)
       | [] => set_now AwaitingSleep st
       end.

(** The extraction step of the loop body. *)
Definition extraction (browser : bool) (b : BrowserWorker.session) (page_doc : PageDocument)
  : result PageDocument * list log_entry :=
  if browser && truthy (doc_get page_doc "html") && doc_contains page_doc "url" "quora.com"
  then
    match BrowserWorker.extract b (doc_url page_doc) with
    | (Return extracted, ls) => (Return (update page_doc extracted), ls)
    | (Raise e, ls) =>
        if is_Exception (exc_cls e)
        then (Return page_doc,
              (ls ++ [LogEntry WARNING "browser_extract_failed" [("error", VStr (exc_str e))]])%list)
        else (Raise e, ls)
    end
  else (Return page_doc, []).

(** The loop body of [worker] up to the shutdown test. *)
Definition process (st : state) (task : FetchTask)
    (w : Fetcher.world) (b : BrowserWorker.session) (s : result unit)
  : list obs * MongoStore.t * result unit :=
  match Fetcher.fetch w task with
  | (Raise e, ls) => (map Log ls, store st, Raise e)
  | (Return fetched, ls) =>
      match extraction (browser_worker st) b fetched with
      | (Raise e, ls') => ((map Log ls ++ map Log ls')%list, store st, Raise e)
      | (Return page_doc, ls') =>
          match MongoStore.save_page (store st) s page_doc with
          | (Raise e, store') =>
              ((map Log ls ++ map Log ls' ++ [Persist page_doc])%list, store', Raise e)
          | (Return _, store') =>
              ((map Log ls ++ map Log ls'
                 ++ [ Persist page_doc;
                      Log (LogEntry INFO "task_processed"
                             [ ("url", doc_get page_doc "url");
                               ("status_code", doc_get page_doc "status_code") ]) ])%list,
               store', Return tt)
          end
      end
  end.

Section Codec.
Context {payload : Type}.
Variable json_loads : list byte -> result payload.
Variable FetchTask_validate : payload -> result FetchTask.

Definition step (st : state) (ev : event) : state :=
  match now st, ev with
  | Exited _, _ => st
  | _, Signal name =>
      set_shutdown
        (emit [Log (LogEntry INFO "signal_received" [("signal", VStr name)]); ShutdownSet] st)
  | AwaitingGetone, GetoneDone r =>
      match on_getone json_loads FetchTask_validate r with
      | Yield task => take_up task st
      | Skip l => emit [Log l] st
      | Stop => finish (Return 0) st
      | Throw e => finish (Raise e) st
      end
  | AwaitingSleep, SleepDone => finish (Return 0) st
  | InFlight task, TaskDone w b s =>
      let '(os, store', r) := process st task w b s in
      let st' := emit (os ++ [Leave task])%list (set_store store' st) in
      match r with
      | Raise e => finish (Raise e) st'
      | Return _ => if shutdown_event st' then finish (Return 0) st' else pull st'
      end
  | _, _ => st                       (* not the await the worker is suspended on *)
  end.

Definition steps (st : state) (evs : list event) : state := fold_left step evs st.

End Codec.

(** What [run] finds when it starts. *)
Record startup : Type := mkStartup {
  env : environ;
  aiokafka : bool;                   (* AIOKafkaConsumer could be imported *)
  motor : bool;                      (* AsyncIOMotorClient could be imported *)
  selenium : bool;                   (* webdriver could be imported *)
  chrome : result unit;              (* BrowserWorker(logger) *)
  broker : result unit               (* await self._consumer.start() *)
}.

Definition config_dump (c : Config) : pyval :=
  VDict [ ("kafka_bootstrap_servers", VStr (kafka_bootstrap_servers c));
          ("kafka_topic", VStr (kafka_topic c));
          ("mongo_db", VStr (mongo_db c));
          ("mongo_collection", VStr (mongo_collection c));
          ("http_timeout_seconds", VFloat (http_timeout_seconds c));
          ("max_concurrent_fetches", VInt (max_concurrent_fetches c));
          ("user_agent", VStr (user_agent c));
          ("log_level", VStr (cfg_log_level c)) ].

(** [run] up to the first suspension of [worker]; a failure here is raised
    before the [try], so nothing is cleaned up. *)
Definition start (s : startup) : result state :=
  match Config_load (env s) with
  | Raise e => Raise e
  | Return c =>
      match (if selenium s then chrome s else Return tt) with
      | Raise e => Raise e
      | Return _ =>
          let '(st, store_log) := MongoStore.init c (motor s) in
          let opening :=
            (Log (LogEntry INFO "service_starting" [("config", config_dump c)])
             :: map Log store_log)%list in
          if aiokafka s then
            match broker s with
            | Raise e => Raise e
            | Return _ =>
                Return (pull (mkState c true sample_urls (selenium s) st false AwaitingGetone
                  (opening ++ [Log (LogEntry INFO "kafka_consumer_started"
                                      [("topic", VStr (kafka_topic c))])])%list))
            end
          else
            Return (pull (mkState c false sample_urls (selenium s) st false AwaitingGetone
              (opening ++ [Log (LogEntry WARNING "aiokafka not installed; using synthetic tasks" [])])%list))
      end
  end.

End Run.

(** ** [parser.py]: selector-based extraction

    [BeautifulSoup(html, "html.parser")], [select_one] and [get_text] are
    library calls.  They are modelled on the markup the parser is fed: start
    tags with quoted or bare attributes, end tags, text.  An end tag closes
    the innermost open element of that name and everything opened inside
    it; one that matches nothing is dropped; comments and declarations
    leave no node; character references are not decoded. *)

Module Parser.

Inductive node : Type :=
  | Text (s : string)
  | Element (tag : string) (attrs : list (string * string)) (children : list node).

Inductive token : Type :=
  | TStart (name : string) (attrs : list (string * string))
  | TEnd (name : string)
  | TData (s : string).

(** the text before the first [c], and the text after it *)
Fixpoint split_on (c : ascii) (s : string) : option (string * string) :=
  match s with
  | EmptyString => None
  | String d s' =>
      if Ascii.eqb c d then Some (EmptyString, s')
      else match split_on c s' with
           | Some (l, r) => Some (String d l, r)
           | None => None
           end
  end.

Fixpoint take_while (p : ascii -> bool) (s : string) : string * string :=
  match s with
  | String c s' =>
      if p c then let '(l, r) := take_while p s' in (String c l, r) else (EmptyString, s)
  | EmptyString => (EmptyString, EmptyString)
  end.

Definition name_char (c : ascii) : bool :=
  negb (is_space c || Ascii.eqb c "=" || Ascii.eqb c "/")%char.

Definition dquote : ascii := ascii_of_nat 34.

Definition is_quote (c : ascii) : bool := Ascii.eqb c dquote || Ascii.eqb c "'".

Fixpoint parse_attrs (fuel : nat) (s : string) : list (string * string) :=
  match fuel with
  | O => []
  | S fuel' =>
      match lstrip s with
      | EmptyString => []
      | String "/" rest => parse_attrs fuel' rest
      | String "=" rest => parse_attrs fuel' rest
      | s1 =>
          let '(name, rest) := take_while name_char s1 in
          match lstrip rest with
          | String "=" after =>
              match lstrip after with
              | String q quoted =>
                  if is_quote q then
                    match split_on q quoted with
                    | Some (v, rest') => (lower name, v) :: parse_attrs fuel' rest'
                    | None => [(lower name, quoted)]
                    end
                  else
                    let '(v, rest') :=
                      take_while (fun c => negb (is_space c)) (String q quoted) in
                    (lower name, v) :: parse_attrs fuel' rest'
              | EmptyString => [(lower name, EmptyString)]
              end
          | rest' => (lower name, EmptyString) :: parse_attrs fuel' rest'
          end
      end
  end.

Definition ends_with_slash (s : string) : bool :=
  match rstrip s with
  | EmptyString => false
  | r => match String.get (String.length r - 1) r with
         | Some "/"%char => true
         | _ => false
         end
  end.

(** the tokens of the text between [<] and [>] *)
Definition tag_tokens (inside : string) : list token :=
  match inside with
  | String "/" name => [TEnd (lower (strip name))]
  | String "!" _ => []
  | String "?" _ => []
  | _ =>
      let '(name, rest) := take_while name_char inside in
      let start := TStart (lower name) (parse_attrs (String.length rest) rest) in
      if ends_with_slash inside then [start; TEnd (lower name)] else [start]
  end.

Fixpoint tokenize (fuel : nat) (s : string) : list token :=
  match fuel with
  | O => []
  | S fuel' =>
      match s with
      | EmptyString => []
      | String "<" rest =>
          match split_on ">" rest with
          | Some (inside, after) => (tag_tokens inside ++ tokenize fuel' after)%list
          | None => [TData s]
          end
      | _ =>
          let '(data, rest) := take_while (fun c => negb (Ascii.eqb c "<")) s in
          TData data :: tokenize fuel' rest
      end
  end.

(** an open element: tag, attributes, children so far (latest first) *)
Definition frame : Type := string * list (string * string) * list node.

Definition void_tags : list string :=
  [ "area"; "base"; "br"; "col"; "embed"; "hr"; "img"; "input"; "keygen";
    "link"; "menuitem"; "meta"; "param"; "source"; "track"; "wbr" ].

Definition mem (x : string) (l : list string) : bool := existsb (String.eqb x) l.

Definition add_child (n : node) (stack : list frame) (root : list node)
  : list frame * list node :=
  match stack with
  | (t, a, cs) :: rest => ((t, a, n :: cs) :: rest, root)
  | [] => ([], n :: root)
  end.

(** closes the open elements down to and including the innermost [name];
    [carry] is the element closed last, still to be attached *)
Fixpoint pop_to_tag (name : string) (carry : option node) (stack : list frame)
  : option node * list frame :=
  match stack with
  | [] => (carry, [])
  | (t, a, cs) :: rest =>
      let cs' := match carry with Some n => n :: cs | None => cs end in
      let el := Element t a (rev cs') in
      if String.eqb t name then (Some el, rest) else pop_to_tag name (Some el) rest
  end.

Fixpoint close_all (carry : option node) (stack : list frame) : option node :=
  match stack with
  | [] => carry
  | (t, a, cs) :: rest =>
      let cs' := match carry with Some n => n :: cs | None => cs end in
      close_all (Some (Element t a (rev cs'))) rest
  end.

Fixpoint build (toks : list token) (stack : list frame) (root : list node) : list node :=
  match toks with
  | [] =>
      match close_all None stack with
      | Some n => rev (n :: root)
      | None => rev root
      end
  | TData s :: toks' =>
      let '(stack', root') := add_child (Text s) stack root in build toks' stack' root'
  | TStart name attrs :: toks' =>
      if mem name void_tags then
        let '(stack', root') := add_child (Element name attrs []) stack root in
        build toks' stack' root'
      else build toks' ((name, attrs, []) :: stack) root
  | TEnd name :: toks' =>
      if mem name (map (fun f => fst (fst f)) stack) then
        match pop_to_tag name None stack with
        | (Some el, stack') =>
            let '(stack'', root') := add_child el stack' root in build toks' stack'' root'
        | (None, stack') => build toks' stack' root
        end
      else build toks' stack root
  end.

(** [BeautifulSoup(html, "html.parser")]: the top-level nodes *)
Definition BeautifulSoup (html : string) : list node :=
  build (tokenize (String.length html) html) [] [].

(** a compound selector [tag.class1.class2...] *)
Record selector : Type := mkSelector { sel_tag : string; sel_classes : list string }.

Fixpoint split_dots (cur : string) (s : string) : list string :=
  match s with
  | EmptyString => [cur]
  | String c s' =>
      if Ascii.eqb c "." then cur :: split_dots EmptyString s'
      else split_dots (cur ++ String c EmptyString) s'
  end.

Definition parse_selector (s : string) : selector :=
  match split_dots EmptyString s with
  | t :: cs => mkSelector t cs
  | [] => mkSelector EmptyString []
  end.

(** [str.split()] *)
Fixpoint split_ws (cur : string) (s : string) : list string :=
  match s with
  | EmptyString => match cur with EmptyString => [] | _ => [cur] end
  | String c s' =>
      if is_space c
      then match cur with
           | EmptyString => split_ws EmptyString s'
           | _ => cur :: split_ws EmptyString s'
           end
      else split_ws (cur ++ String c EmptyString) s'
  end.

Definition classes_of (attrs : list (string * string)) : list string :=
  match find (fun kv => String.eqb (fst kv) "class") attrs with
  | Some (_, v) => split_ws EmptyString v
  | None => []
  end.

Definition matches (sel : selector) (tag : string) (attrs : list (string * string)) : bool :=
  String.eqb (lower (sel_tag sel)) tag
  && forallb (fun c => mem c (classes_of attrs)) (sel_classes sel).

(** first match in document order, in [n] and below *)
Fixpoint select_node (sel : selector) (n : node) : option node :=
  match n with
  | Text _ => None
  | Element t a cs =>
      if matches sel t a then Some n
      else (fix first (l : list node) : option node :=
              match l with
              | [] => None
              | c :: l' =>
                  match select_node sel c with
                  | Some r => Some r
                  | None => first l'
                  end
              end) cs
  end.

Fixpoint select_first (sel : selector) (l : list node) : option node :=
  match l with
  | [] => None
  | c :: l' =>
      match select_node sel c with
      | Some r => Some r
      | None => select_first sel l'
      end
  end.

(** [soup.select_one(selector)] *)
Definition select_one (soup : list node) (s : string) : option node :=
  select_first (parse_selector s) soup.

(** the strings below a node, in document order *)
Fixpoint strings (n : node) : list string :=
  match n with
  | Text s => [s]
  | Element _ _ cs => flat_map strings cs
  end.

(** [el.get_text(separator, strip=True)] *)
Definition get_text (separator : string) (el : node) : string :=
  join separator
    (List.filter (fun s => negb (String.eqb s EmptyString)) (map strip (strings el))).

Definition QUESTION_SELECTOR : string := "div.puppeteer_test_question_title".
Definition ANSWER_SELECTOR : string :=
  "p.q-text.qu-display--block.qu-wordBreak--break-word.qu-textAlign--start".

Definition newline : string := String (ascii_of_nat 10) EmptyString.

Definition extract_question_answer (html : string) : gmap string pyval :=
  let soup := BeautifulSoup html in
  let q_el := select_one soup QUESTION_SELECTOR in
  let a_el := select_one soup ANSWER_SELECTOR in
  let question := match q_el with Some el => Some (get_text EmptyString el) | None => None end in
  let answer := match a_el with Some el => Some (get_text newline el) | None => None end in
  <["question" := of_opt_str question]> (<["answer" := of_opt_str answer]> ∅).

End Parser.


(** ** Vocabulary of the properties *)

(** [doc.get(k) is None] *)
Definition is_None (doc : PageDocument) (k : string) : bool :=
  match Run.doc_get doc k with VNone => true | _ => false end.

(** error set, status_code absent and html absent stand or fall together *)
Definition record_invariant (doc : PageDocument) : Prop :=
  negb (is_None doc "error") = is_None doc "status_code"
  /\ is_None doc "status_code" = is_None doc "html".

Definition invalid_message (e : exn) : log_entry :=
  LogEntry ERROR "invalid_message" [("error", VStr (exc_str e))].

Module Trace.
Import Run.

(** the tasks handed to the loop body, in order *)
Fixpoint entered (tr : list obs) : list FetchTask :=
  match tr with
  | [] => []
  | Enter t :: tr' => t :: entered tr'
  | _ :: tr' => entered tr'
  end.

Fixpoint persisted (tr : list obs) : list PageDocument :=
  match tr with
  | [] => []
  | Persist d :: tr' => d :: persisted tr'
  | _ :: tr' => persisted tr'
  end.

Fixpoint closes (tr : list obs) : list stage :=
  match tr with
  | [] => []
  | Close s :: tr' => s :: closes tr'
  | _ :: tr' => closes tr'
  end.

(** what follows the first [shutdown_event.set()], if there is one *)
Fixpoint after_shutdown (tr : list obs) : option (list obs) :=
  match tr with
  | [] => None
  | ShutdownSet :: tr' => Some tr'
  | _ :: tr' => after_shutdown tr'
  end.

Definition taken_after_shutdown (tr : list obs) : list FetchTask :=
  match after_shutdown tr with
  | Some tl => entered tl
  | None => []
  end.

Definition delta (o : obs) : Z :=
  match o with
  | Enter _ => 1
  | Leave _ => -1
  | _ => 0
  end.

(** tasks inside the loop body at the end of [tr], starting from [cur] *)
Fixpoint occupancy (cur : Z) (tr : list obs) : Z :=
  match tr with
  | [] => cur
  | o :: tr' => occupancy (cur + delta o) tr'
  end.

(** the largest occupancy over the prefixes of [tr] *)
Fixpoint peak (cur : Z) (tr : list obs) : Z :=
  match tr with
  | [] => cur
  | o :: tr' => Z.max cur (peak (cur + delta o) tr')
  end.

Definition close_order (browser : bool) : list stage :=
  ([TaskSource; FetchStage; PersistenceStage]
   ++ (if browser then [ExtractionStage] else []))%list.

(** log lines and hand-overs to the store of well-formed records: what
    the loop body leaves between entering and leaving *)
Definition benign (o : obs) : Prop :=
  match o with
  | Log _ => True
  | Persist d => record_invariant d
  | _ => False
  end.

Definition signal_obs (name : string) : list obs :=
  [Log (LogEntry INFO "signal_received" [("signal", VStr name)]); ShutdownSet].

Definition running (st : state) : Prop :=
  match now st with Exited _ => False | _ => True end.

Definition waiting (st : state) : Prop :=
  now st = AwaitingGetone \/ now st = AwaitingSleep.

(** the state in which the loop body of [task] has just ended *)
Definition left (st : state) (task : FetchTask) (os : list obs) (store' : MongoStore.t) : state :=
  emit (os ++ [Leave task])%list (set_store store' st).

(** The moves of the machine, by shape. *)
Inductive transition : state -> state -> Prop :=
  | T_signal st name :
      running st -> transition st (set_shutdown (emit (signal_obs name) st))
  | T_take st task :
      now st = AwaitingGetone -> transition st (take_up task st)
  | T_skip st l :
      now st = AwaitingGetone -> transition st (emit [Log l] st)
  | T_end st r :
      waiting st -> transition st (finish r st)
  | T_abort st task os store' e :
      now st = InFlight task -> Forall benign os ->
      transition st (finish (Raise e) (left st task os store'))
  | T_break st task os store' :
      now st = InFlight task -> Forall benign os -> shutdown_event st = true ->
      transition st (finish (Return 0) (left st task os store'))
  | T_next st task os store' :
      now st = InFlight task -> Forall benign os -> shutdown_event st = false ->
      transition st (pull (left st task os store')).

(** Invariants of the machine. *)

Definition phase_occupancy (st : state) : Z :=
  match now st with InFlight _ => 1 | _ => 0 end.

Definition occupancy_inv (st : state) : Prop :=
  occupancy 0 (trace st) = phase_occupancy st /\ peak 0 (trace st) <= 1.

Definition closes_inv (st : state) : Prop :=
  closes (trace st)
  = match now st with
    | Exited _ => close_order (browser_worker st)
    | _ => []
    end.

Definition shutdown_inv (st : state) : Prop :=
  match after_shutdown (trace st) with
  | None => shutdown_event st = false
  | Some tl =>
      shutdown_event st = true
      /\ (length (entered tl) <= 1)%nat
      /\ (waiting st -> entered tl = [])
  end.

Definition degraded_inv (st : state) : Prop :=
  consumer st = false ->
  now st <> AwaitingGetone
  /\ (entered (trace st) ++ map KafkaConsumerWrapper.synthetic_task (samples st))%list
     = map KafkaConsumerWrapper.synthetic_task KafkaConsumerWrapper.sample_urls.

(** shutdown was requested while a task was in flight, and nothing has
    been admitted since *)
Definition draining_inv (st : state) : Prop :=
  shutdown_event st = true
  /\ ~ waiting st
  /\ exists tl, after_shutdown (trace st) = Some tl /\ entered tl = [].

Definition persist_inv (st : state) : Prop :=
  Forall record_invariant (persisted (trace st)).

Section CodecVocabulary.
Context {payload : Type}.
Variable json_loads : list byte -> result payload.
Variable FetchTask_validate : payload -> result FetchTask.
Import KafkaConsumerWrapper.

Definition valid_task (m : message) : option FetchTask :=
  match deserialize json_loads FetchTask_validate m with
  | Return task => Some task
  | Raise _ => None
  end.

Definition complaint (m : message) : option log_entry :=
  match deserialize json_loads FetchTask_validate m with
  | Return _ => None
  | Raise e => Some (invalid_message e)
  end.

(** the payload fails deserialisation or validation *)
Definition malformed (m : message) : Prop :=
  exists e, deserialize json_loads FetchTask_validate m = Raise e
            /\ is_Exception (exc_cls e) = true.

(** a failure of the two library calls is an ordinary [Exception] *)
Definition ordinary (m : message) : Prop :=
  forall e, deserialize json_loads FetchTask_validate m = Raise e ->
            is_Exception (exc_cls e) = true.

Definition delivered (m : message) : event := GetoneDone (Return m).
End CodecVocabulary.

End Trace.

(** a node and everything below it, in document order *)
Fixpoint descendants (n : Parser.node) : list Parser.node :=
  n :: match n with
       | Parser.Element _ _ cs => flat_map descendants cs
       | Parser.Text _ => []
       end.

Definition node_matches (sel : Parser.selector) (n : Parser.node) : bool :=
  match n with
  | Parser.Element t a _ => Parser.matches sel t a
  | Parser.Text _ => false
  end.

(** induction on a node that reaches the children *)
Fixpoint node_rect' (P : Parser.node -> Prop)
    (HT : forall s, P (Parser.Text s))
    (HE : forall t a cs, Forall P cs -> P (Parser.Element t a cs))
    (n : Parser.node) : P n :=
  match n with
  | Parser.Text s => HT s
  | Parser.Element t a cs =>
      HE t a cs
        ((fix all (l : list Parser.node) : Forall P l :=
            match l with
            | [] => @List.Forall_nil _ P
            | c :: l' => @List.Forall_cons _ P c l' (node_rect' P HT HE c) (all l')
            end) cs)
  end.

(** the elements of a parsed page that a selector string picks out *)
Definition selected (soup : list Parser.node) (s : string) : list Parser.node :=
  List.filter (node_matches (Parser.parse_selector s)) (flat_map descendants soup).

(** the scenario page of the parser *)
Definition scenario_html : string :=
  let q := String Parser.dquote EmptyString in
  "<div class=" ++ q ++ "puppeteer_test_question_title" ++ q
  ++ ">What is Python?</div><p class=" ++ q
  ++ "q-text qu-display--block qu-wordBreak--break-word qu-textAlign--start" ++ q
  ++ ">Python is a programming language.</p>".

(** ** Concrete inputs *)

Module Examples.
Import KafkaConsumerWrapper.

Definition body : list byte := [x3c; x70; x3e; x68; x69; x3c; x2f; x70; x3e]%byte.

Definition w_refused : Fetcher.world :=
  Fetcher.mkWorld 1 (3 # 2) (fun _ => x2a%byte) "2024-05-01T12:00:00Z"
    (Raise (Exn ConnectError "[Errno 111] Connection refused")).

Definition some_bytes (n : nat) : byte :=
  match Byte.of_N (N.of_nat (17 * n + 3)) with
  | Some b => b
  | None => x00%byte
  end.

Definition w_ok : Fetcher.world :=
  Fetcher.mkWorld 10 (10 + (12345 # 100000)) some_bytes "2024-05-01T12:00:01Z"
    (Return (Fetcher.mkResponse 200 body "<p>hi</p>")).

Definition task_unreachable : FetchTask := mkFetchTask "https://unreachable.invalid" None None.
Definition task_empty_id : FetchTask := mkFetchTask "https://example.org" (Some "") (Some 5).
Definition task_quora : FetchTask :=
  mkFetchTask "https://www.quora.com/What-is-Python" (Some "q-1") None.

(** A stand-in for the two library calls, enough for the messages below:
    [toy_loads] knows three JSON documents and takes any other text as
    malformed; [toy_validate] wants an object with an http(s) [url] string,
    and optional [id] string and [priority] integer in 0..100. *)
Inductive toy_payload : Type :=
  | Obj (kv : list (string * pyval))
  | Arr.

Definition quoted (s : string) : string :=
  String Parser.dquote s ++ String Parser.dquote EmptyString.

Definition good_json : string :=
  "{" ++ quoted "url" ++ ": " ++ quoted "https://www.quora.com/What-is-Python"
  ++ ", " ++ quoted "id" ++ ": " ++ quoted "q-1" ++ "}".

Definition toy_loads (bs : list byte) : result toy_payload :=
  let text := string_of_list_byte bs in
  if String.eqb text good_json then
    Return (Obj [("url", VStr "https://www.quora.com/What-is-Python"); ("id", VStr "q-1")])
  else if String.eqb text "{}" then Return (Obj [])
  else if String.eqb text "[]" then Return Arr
  else Raise (Exn JSONDecodeError "Expecting value: line 1 column 1 (char 0)").

Definition field (k : string) (kv : list (string * pyval)) : pyval :=
  match List.find (fun p => String.eqb (fst p) k) kv with
  | Some (_, v) => v
  | None => VNone
  end.

Definition toy_validate (p : toy_payload) : result FetchTask :=
  let invalid := Raise (Exn ValidationError "1 validation error for FetchTask") in
  match p with
  | Arr => Raise (Exn TypeError "argument after ** must be a mapping, not list")
  | Obj kv =>
      match field "url" kv, field "id" kv, field "priority" kv with
      | VStr u, (VNone | VStr _) as i, (VNone | VInt _) as pr =>
          let scheme_ok := String.prefix "http://" u || String.prefix "https://" u in
          let pr_ok := match pr with VInt z => (0 <=? z) && (z <=? 100) | _ => true end in
          if scheme_ok && pr_ok then
            Return (mkFetchTask u
                      (match i with VStr x => Some x | _ => None end)
                      (match pr with VInt z => Some z | _ => None end))
          else invalid
      | _, _, _ => invalid
      end
  end.

Definition msg_good : message := mkMessage (Some (list_byte_of_string good_json)).
Definition msg_empty : message := mkMessage (Some []).
Definition msg_no_url : message := mkMessage (Some (list_byte_of_string "{}")).
Definition msg_list : message := mkMessage (Some (list_byte_of_string "[]")).
Definition msg_tombstone : message := mkMessage None.

Definition quiet_browser : BrowserWorker.session :=
  BrowserWorker.mkSession 0 (1 # 4) (Return tt)
    (Some (Return " What is Python? ")) None.

(** an environment that sets every variable [Config.load] reads, so that
    no default is consulted; [MONGO_URI] stays unset *)
Definition deployed : environ :=
  list_to_map
    [ ("KAFKA_BOOTSTRAP_SERVERS", "broker-1:9092");
      ("KAFKA_TOPIC", "quora.fetch.requests");
      ("MONGO_DB", "quorabroker");
      ("MONGO_COLLECTION", "pages");
      ("HTTP_TIMEOUT_SECONDS", "15");
      ("MAX_CONCURRENT_FETCHES", "10");
      ("USER_AGENT", "quorabroker/0.1");
      ("LOG_LEVEL", "info") ].

Definition no_infrastructure (e : environ) : Run.startup :=
  Run.mkStartup e false false false (Return tt) (Return tt).

Definition live_broker (e : environ) : Run.startup :=
  Run.mkStartup e true false false (Return tt) (Return tt).

End Examples.

(** ** [main.py]: the end of [run], and [main] *)

Module Exit.
Import Run.

(** What the four resources answer when they are released. *)
Record closing : Type := mkClosing {
  stop : result unit;               (* await self._consumer.stop() *)
  aclose : result unit;             (* await self._client.aclose() *)
  client_close : result unit;       (* self._client.close() of the Mongo client *)
  quit : result unit                (* self._driver.quit() *)
}.

(** [BrowserWorker.close]: an [Exception] of [quit] is swallowed. *)
Definition browser_close (c : closing) : result unit :=
  match quit c with
  | Return _ => Return tt
  | Raise e => if is_Exception (exc_cls e) then Return tt else Raise e
  end.

(** [MongoStore.close]: the client exists exactly when the collection does. *)
Definition store_close (st : state) (c : closing) : result unit :=
  match MongoStore.collection (store st) with
  | Some _ => client_close c
  | None => Return tt
  end.

(** [KafkaConsumerWrapper.stop] *)
Definition consumer_stop (st : state) (c : closing) : result unit * list obs :=
  if consumer st then
    match stop c with
    | Return _ => (Return tt, [Log (LogEntry INFO "kafka_consumer_stopped" [])])
    | Raise e => (Raise e, [])
    end
  else (Return tt, []).

(** The [finally] block of [run], statement by statement: what it leaves
    in the trace, and the exception that leaves it, if one does. *)
Definition finally_block (st : state) (c : closing) : list obs * result unit :=
  match consumer_stop st c with
  | (Raise e, os) => ((Close TaskSource :: os)%list, Raise e)
  | (Return _, os) =>
      let t1 := (Close TaskSource :: os)%list in
      match aclose c with
      | Raise e => ((t1 ++ [Close FetchStage])%list, Raise e)
      | Return _ =>
          match store_close st c with
          | Raise e => ((t1 ++ [Close FetchStage; Close PersistenceStage])%list, Raise e)
          | Return _ =>
              let t3 := (t1 ++ [Close FetchStage; Close PersistenceStage])%list in
              let stopped := Log (LogEntry INFO "service_stopped" []) in
              if browser_worker st then
                match browser_close c with
                | Return _ => ((t3 ++ [Close ExtractionStage; stopped])%list, Return tt)
                | Raise e =>
                    if is_Exception (exc_cls e)
                    then ((t3 ++ [Close ExtractionStage; stopped])%list, Return tt)
                    else ((t3 ++ [Close ExtractionStage])%list, Raise e)
                end
              else ((t3 ++ [stopped])%list, Return tt)
          end
      end
  end.

(** [try: await worker() finally: ...; return 0]: an exception of the
    [finally] block replaces the one of the worker. *)
Definition run_result (worker : result unit) (fin : result unit) : result Z :=
  match fin with
  | Raise e => Raise e
  | Return _ =>
      match worker with
      | Raise e => Raise e
      | Return _ => Return 0
      end
  end.

(** [main]: the status handed to [sys.exit], or the exception that
    escapes. *)
Definition main (r : result Z) : result Z :=
  match r with
  | Return exit_code => Return exit_code
  | Raise e =>
      match exc_cls e with
      | KeyboardInterrupt => Return 130
      | _ => Raise e
      end
  end.

(** [cfg.model_dump()], in the order of the class *)
Definition model_dump (c : Config) : list (string * pyval) :=
  [ ("kafka_bootstrap_servers", VStr (kafka_bootstrap_servers c));
    ("kafka_topic", VStr (kafka_topic c));
    ("mongo_uri", of_opt_str (mongo_uri c));
    ("mongo_db", VStr (mongo_db c));
    ("mongo_collection", VStr (mongo_collection c));
    ("http_timeout_seconds", VFloat (http_timeout_seconds c));
    ("max_concurrent_fetches", VInt (max_concurrent_fetches c));
    ("user_agent", VStr (user_agent c));
    ("log_level", VStr (cfg_log_level c)) ].

(** [{k: v for k, v in cfg_dump.items() if k != "mongo_uri"}] *)
Definition logged_config (c : Config) : list (string * pyval) :=
  List.filter (fun kv => negb (String.eqb (fst kv) "mongo_uri")) (model_dump c).

End Exit.

(** ** More vocabulary *)

Module More.
Import Run Trace.

(** the variables for which [Config.load] has a fallback *)
Definition defaulted_variables : list string :=
  [ "KAFKA_BOOTSTRAP_SERVERS"; "KAFKA_TOPIC"; "MONGO_DB"; "MONGO_COLLECTION";
    "HTTP_TIMEOUT_SECONDS"; "MAX_CONCURRENT_FETCHES"; "USER_AGENT"; "LOG_LEVEL" ].

(** each of them is set to a non-empty text, so that no fallback is read *)
Definition all_set (e : environ) : bool :=
  forallb (fun k => match e !! k with
                    | Some v => negb (String.eqb v "")
                    | None => false
                    end) defaulted_variables.

(** the keys of a fetched record *)
Definition record_keys : gset string :=
  list_to_set [ "_id"; "url"; "status_code"; "fetched_at"; "latency_ms";
                "content_length"; "html"; "error"; "meta" ].

(** neither question nor answer *)
Definition fetched_key (k : string) : Prop := k <> "question" /\ k <> "answer".

(** [s.strip() == s] *)
Definition trimmed (s : string) : Prop := strip s = s.

(** the first character, if there is one, is not a blank *)
Definition starts_clean (s : string) : bool :=
  match s with
  | EmptyString => true
  | String c _ => negb (is_space c)
  end.

(** a field that is [None] or a trimmed string *)
Definition none_or_trimmed (v : option pyval) : Prop :=
  v = Some VNone \/ exists s, v = Some (VStr s) /\ trimmed s.

(** the store driver answers every insert *)
Definition driver_answers (ev : event) : Prop :=
  match ev with
  | TaskDone _ _ (Raise _) => False
  | _ => True
  end.

(** the events of the log with a given name *)
Fixpoint logged (name : string) (tr : list obs) : list log_entry :=
  match tr with
  | [] => []
  | Log e :: tr' =>
      if String.eqb (log_event e) name then e :: logged name tr' else logged name tr'
  | _ :: tr' => logged name tr'
  end.

(** the line the worker logs when a task is done *)
Definition task_processed_line (doc : PageDocument) : log_entry :=
  LogEntry INFO "task_processed"
    [("url", doc_get doc "url"); ("status_code", doc_get doc "status_code")].

(** an error of the HTTP exchange that [fetch] turns into a record *)
Definition fetch_settles (w : Fetcher.world) : Prop :=
  match Fetcher.get w with
  | Return _ => True
  | Raise e => is_Exception (exc_cls e) = true
  end.

End More.

(** ** More concrete inputs *)

Module Samples.

(** the question element has gone stale, the answer element is there *)
Definition stale_question : BrowserWorker.session :=
  BrowserWorker.mkSession 0 1 (Return tt)
    (Some (Raise (Exn WebDriverException "stale element reference")))
    (Some (Return "Python is a programming language.")).

(** the page does not load *)
Definition no_page : BrowserWorker.session :=
  BrowserWorker.mkSession 0 30 (Raise (Exn WebDriverException "net::ERR_TIMED_OUT"))
    None None.

Definition w_cancelled : Fetcher.world :=
  Fetcher.mkWorld 2 3 (fun _ => x00%byte) "2024-05-01T12:00:02Z"
    (Raise (Exn CancelledError "")).

Definition w_quora : Fetcher.world :=
  Fetcher.mkWorld 2 (5 # 2) Examples.some_bytes "2024-05-01T12:00:03Z"
    (Return (Fetcher.mkResponse 200 Examples.body "<p>hi</p>")).

Definition duplicate_key : exn := Exn DuplicateKeyError "E11000 duplicate key error".

Definition settings : Config :=
  mkConfig "broker-1:9092" "quora.fetch.requests" None "quorabroker" "pages" 15 10
    "quorabroker/0.1" "INFO".

(** a live worker with a browser and no store, busy with the quora task *)
Definition busy : Run.state :=
  Run.mkState settings true KafkaConsumerWrapper.sample_urls true (MongoStore.mk None)
    false (Run.InFlight Examples.task_quora) [Run.Enter Examples.task_quora].

(** the same worker, waiting for a message *)
Definition idle : Run.state :=
  Run.mkState settings true KafkaConsumerWrapper.sample_urls true (MongoStore.mk None)
    false Run.AwaitingGetone [].

(** Chrome has gone away when the browser is closed *)
Definition browser_gone : Exit.closing :=
  Exit.mkClosing (Return tt) (Return tt) (Return tt)
    (Raise (Exn WebDriverException "chrome not reachable")).

(** the broker has gone away when the consumer is stopped *)
Definition broker_gone : Exit.closing :=
  Exit.mkClosing (Raise (Exn (OtherException "KafkaConnectionError") "broker gone"))
    (Return tt) (Return tt) (Return tt).

(** a live worker with a store, busy with the quora task *)
Definition storing : Run.state :=
  Run.mkState settings true KafkaConsumerWrapper.sample_urls false (MongoStore.mk (Some []))
    false (Run.InFlight Examples.task_quora) [Run.Enter Examples.task_quora].

Definition five_messages : list KafkaConsumerWrapper.message :=
  [ Examples.msg_empty; Examples.msg_good; Examples.msg_tombstone;
    Examples.msg_no_url; Examples.msg_good ].

(** a store is configured and its driver is installed *)
Definition with_store (e : environ) : Run.startup :=
  Run.mkStartup (<["MONGO_URI" := "mongodb://db:27017"]> e) true true false
    (Return tt) (Return tt).

End Samples.

(** * Properties *)

(** ** Fetch stage *)

Section FetchFacts.
Import Fetcher.

Lemma round_half_even_nonneg (x : Q) : (0 <= x)%Q -> 0 <= round_half_even x.
Proof.
  intros Hx. unfold round_half_even.
  assert (Hf : 0 <= Qfloor x) by (change 0 with (Qfloor 0); now apply Qfloor_resp_le).
  destruct (Qcompare _ _); [destruct (Z.even _) | |]; lia.
Qed.

Lemma round2_nonneg (x : Q) : (0 <= x)%Q -> (0 <= round2 x)%Q.
Proof.
  intros Hx. unfold round2, Qle. simpl.
  assert (0 <= round_half_even (x * 100)).
  { apply round_half_even_nonneg. apply Qmult_le_0_compat; [exact Hx | discriminate]. }
  lia.
Qed.

Lemma latency_nonneg (w : world) :
  (perf_started w <= perf_finished w)%Q -> (0 <= round2 (latency_ms w))%Q.
Proof.
  intros H. apply round2_nonneg. unfold latency_ms.
  apply Qmult_le_0_compat; [| discriminate].
  now apply Qle_minus_iff in H.
Qed.

End FetchFacts.



Lemma hex_byte_chars (b : byte) :
  is_hex_char (hex_digit (Byte.to_N b / 16)) && is_hex_char (hex_digit (Byte.to_N b mod 16)) = true.
Proof. destruct b; reflexivity. Qed.

Lemma hex_length (bs : list byte) : String.length (hex bs) = (2 * length bs)%nat.
Proof. induction bs as [| b bs IH]; simpl; [reflexivity | rewrite IH; lia]. Qed.

Lemma hex_chars (bs : list byte) :
  forallb is_hex_char (list_ascii_of_string (hex bs)) = true.
Proof.
  induction bs as [| b bs IH]; [reflexivity |].
  cbn [hex list_ascii_of_string forallb]. rewrite IH, andb_true_r.
  apply hex_byte_chars.
Qed.

Lemma os_urandom_length (w : Fetcher.world) (n : nat) : length (Fetcher.os_urandom w n) = n.
Proof. unfold Fetcher.os_urandom. now rewrite length_map, length_seq. Qed.

Lemma fetch_id (w : Fetcher.world) (task : FetchTask) (doc : PageDocument) :
  fst (Fetcher.fetch w task) = Return doc ->
  doc !! "_id" = Some (VStr (str_or (id task) (hex (Fetcher.os_urandom w 8)))).
Proof.
  unfold Fetcher.fetch.
  destruct (Fetcher.get w) as [resp | e]; [| destruct (is_Exception _)]; simpl;
    intros H; inversion H; reflexivity.
Qed.

(** C10.  An [id] that is present but empty is not kept: the record's
    [_id] is then the hexadecimal text of eight fresh random bytes, sixteen
    characters out of [0-9a-f], and the whole record is the one an absent
    [id] gives.  Only a non-empty [id] is copied. *)
Theorem fetch_empty_id_regenerated (w : Fetcher.world) (task : FetchTask) (doc : PageDocument) :
  fst (Fetcher.fetch w task) = Return doc ->
  let fresh := hex (Fetcher.os_urandom w 8) in
  String.length fresh = 16%nat /\
  forallb is_hex_char (list_ascii_of_string fresh) = true /\
  (id task = Some "" -> doc !! "_id" = Some (VStr fresh)) /\
  (id task = Some "" ->
     Fetcher.fetch w task = Fetcher.fetch w (mkFetchTask (url task) None (priority task))) /\
  (id task = None -> doc !! "_id" = Some (VStr fresh)) /\
  (forall s, id task = Some s -> s <> "" -> doc !! "_id" = Some (VStr s)).
Proof.
  intros Hdoc fresh. apply fetch_id in Hdoc.
  split; [unfold fresh; now rewrite hex_length, os_urandom_length |].
  split; [apply hex_chars |].
  repeat split.
  - intros Hid. now rewrite Hdoc, Hid.
  - intros Hid. unfold Fetcher.fetch. cbn [id url priority]. now rewrite Hid.
  - intros Hid. now rewrite Hdoc, Hid.
  - intros s Hid Hs. rewrite Hdoc, Hid. simpl.
    destruct (String.eqb_spec s ""); [contradiction | reflexivity].
Qed.

Lemma fetch_empty_id_regenerated_witness :
  exists doc : PageDocument,
    fst (Fetcher.fetch Examples.w_ok Examples.task_empty_id) = Return doc /\
    doc !! "_id" = Some (VStr "031425364758697a").
Proof.
  eexists. split; [reflexivity |].
  refine (proj1 (proj2 (proj2
    (fetch_empty_id_regenerated Examples.w_ok Examples.task_empty_id _ eq_refl))) eq_refl).
Defined.

(** ** Persistence stage *)

Lemma init_disabled (cfg : Config) (motor : bool) :
  mongo_uri cfg = None \/ mongo_uri cfg = Some "" \/ motor = false ->
  MongoStore.collection (fst (MongoStore.init cfg motor)) = None.
Proof.
  unfold MongoStore.init.
  intros [H | [H | H]]; rewrite H; simpl; try reflexivity.
  now rewrite andb_false_r.
Qed.

(** C7.  When no store is configured (no [MONGO_URI], an empty one, or the
    driver missing) [save_page] returns normally for every document,
    whatever the driver would have answered, and leaves the store as it
    was; the rest of the loop body is then the same for every such answer,
    and ends normally whenever fetch and extraction did. *)
Theorem save_page_noop_without_store (cfg : Config) (motor : bool) :
  mongo_uri cfg = None \/ mongo_uri cfg = Some "" \/ motor = false ->
  let store := fst (MongoStore.init cfg motor) in
  (forall (doc : PageDocument) (driver : result unit),
      MongoStore.save_page store driver doc = (Return tt, store)) /\
  (forall (st : Run.state) task w b (driver driver' : result unit),
      Run.store st = store ->
      Run.process st task w b driver = Run.process st task w b driver' /\
      snd (fst (Run.process st task w b driver)) = store /\
      (forall fetched ls page_doc ls',
          Fetcher.fetch w task = (Return fetched, ls) ->
          Run.extraction (Run.browser_worker st) b fetched = (Return page_doc, ls') ->
          snd (Run.process st task w b driver) = Return tt)).
Proof.
  intros Hcfg store.
  assert (Hnone : MongoStore.collection store = None) by now apply init_disabled.
  assert (Hsave : forall doc driver, MongoStore.save_page store driver doc = (Return tt, store)).
  { intros doc driver. unfold MongoStore.save_page. now rewrite Hnone. }
  split; [exact Hsave |].
  intros st task w b driver driver' Hst. unfold Run.process. rewrite Hst.
  split; [| split].
  - destruct (Fetcher.fetch w task) as [[fetched | e] ls]; [| reflexivity].
    destruct (Run.extraction _ b fetched) as [[page_doc | e] ls']; [| reflexivity].
    now rewrite !Hsave.
  - destruct (Fetcher.fetch w task) as [[fetched | e] ls]; [| reflexivity].
    destruct (Run.extraction _ b fetched) as [[page_doc | e] ls']; [| reflexivity].
    now rewrite Hsave.
  - intros fetched ls page_doc ls' Hf He. now rewrite Hf, He, Hsave.
Qed.

Lemma save_page_noop_without_store_witness :
  MongoStore.save_page (MongoStore.mk None) (Raise (Exn DuplicateKeyError "E11000"))
    (<["_id" := VStr "q-1"]> ∅)
  = (Return tt, MongoStore.mk None).
Proof.
  refine (proj1 (save_page_noop_without_store
    (mkConfig "localhost:9092" "quora.fetch.requests" None "quorabroker" "pages" 15 10
       "quorabroker/0.1" "INFO") true _) _ _).
  left. reflexivity.
Defined.

(** ** Selector parser *)

Section ParserFacts.
Import Parser.

Lemma filter_app_nil {A} (p : A -> bool) (l1 l2 : list A) :
  List.filter p (l1 ++ l2)%list = [] <-> List.filter p l1 = [] /\ List.filter p l2 = [].
Proof.
  rewrite List.filter_app. split.
  - intros H. now apply app_eq_nil in H.
  - intros [-> ->]. reflexivity.
Qed.

Lemma select_node_none (sel : selector) (n : node) :
  select_node sel n = None <-> List.filter (node_matches sel) (descendants n) = [].
Proof.
  induction n as [s | t a cs IH] using node_rect'; [simpl; tauto |].
  cbn [select_node descendants List.filter node_matches].
  destruct (matches sel t a); [split; discriminate |].
  induction IH as [| c cs' Hc _ IHcs]; [simpl; tauto |].
  cbn [flat_map]. rewrite filter_app_nil, <- Hc, <- IHcs.
  destruct (select_node sel c); split; try tauto; try discriminate;
    intros [H _]; discriminate H.
Qed.

Lemma select_first_none (sel : selector) (soup : list node) :
  select_first sel soup = None <-> List.filter (node_matches sel) (flat_map descendants soup) = [].
Proof.
  induction soup as [| c soup IH]; [simpl; tauto |].
  cbn [select_first flat_map]. rewrite filter_app_nil, <- IH, <- select_node_none.
  destruct (select_node sel c); split; try tauto; try discriminate;
    intros [H _]; discriminate H.
Qed.

End ParserFacts.

(** C8.  On the scenario page the extraction gives the question
    "What is Python?" and the answer "Python is a programming language.".
    For every page the function returns a dict with exactly the two keys,
    and a selector that picks out no element of the page leaves its field
    [None]. *)
Theorem extract_question_answer_scenario :
  Parser.extract_question_answer scenario_html !! "question" = Some (VStr "What is Python?") /\
  Parser.extract_question_answer scenario_html !! "answer"
    = Some (VStr "Python is a programming language.") /\
  forall html : string,
    dom (Parser.extract_question_answer html) = {["question"; "answer"]} /\
    (selected (Parser.BeautifulSoup html) Parser.QUESTION_SELECTOR = [] ->
     Parser.extract_question_answer html !! "question" = Some VNone) /\
    (selected (Parser.BeautifulSoup html) Parser.ANSWER_SELECTOR = [] ->
     Parser.extract_question_answer html !! "answer" = Some VNone).
Proof.
  split; [vm_compute; reflexivity |].
  split; [vm_compute; reflexivity |].
  intros html. unfold Parser.extract_question_answer, selected, Parser.select_one.
  split; [| split].
  - rewrite !dom_insert_L, dom_empty_L. set_solver.
  - intros H. apply select_first_none in H. rewrite H.
    now rewrite lookup_insert_eq.
  - intros H. apply select_first_none in H. rewrite H.
    rewrite lookup_insert_ne by discriminate. now rewrite lookup_insert_eq.
Qed.

Lemma extract_question_answer_scenario_witness :
  Parser.extract_question_answer "<p class='q-text'>no title here</p>" !! "question"
  = Some VNone.
Proof.
  refine (proj1 (proj2 (proj2 (proj2 extract_question_answer_scenario) _)) _).
  vm_compute. reflexivity.
Defined.

(** ** Settings *)

Lemma timeout_ok_spec (x : Q) : Settings.timeout_ok x = true <-> (0 < x /\ x <= 300)%Q.
Proof.
  unfold Settings.timeout_ok. rewrite andb_true_iff, negb_true_iff, Qle_bool_iff.
  split; intros [H1 H2]; split; try assumption.
  - apply Qnot_le_lt. intros H. apply Qle_bool_iff in H. congruence.
  - destruct (Qle_bool x 0) eqn:E; [| reflexivity].
    apply Qle_bool_iff in E. exfalso. eapply Qlt_not_le; eassumption.
Qed.

(** The shared model of [config.py] does enforce the bound. *)
Lemma Settings_load_bound (e : environ) (s : Settings.t) :
  Settings.load e = Return s ->
  (0 < Settings.http_timeout_seconds s /\ Settings.http_timeout_seconds s <= 300)%Q.
Proof.
  unfold Settings.load, Settings.validate.
  destruct (parse_float _) as [x | err]; [| discriminate].
  cbn [Settings.http_timeout_seconds].
  destruct (Settings.timeout_ok x) eqn:E; [| discriminate].
  intros H. injection H as <-. cbn [Settings.http_timeout_seconds].
  now apply timeout_ok_spec.
Qed.

(** C9.  The settings the service starts from are those of [Config.load],
    which carries no bound: with [HTTP_TIMEOUT_SECONDS] set to 500, to 0 or
    to -5 the load succeeds and the HTTP client is built with that timeout,
    while [Settings.load] of [config.py] rejects the same environments. *)
Theorem config_load_accepts_any_timeout :
  let envs := [ ("500", 500%Q); ("0", 0%Q); ("-5", (-5)%Q) ] in
  Forall (fun '(text, t) =>
    let e : environ := <[ "HTTP_TIMEOUT_SECONDS" := text ]> Examples.deployed in
    (exists st, Run.start (Examples.no_infrastructure e) = Return st
                /\ Fetcher.timeout (Fetcher.init (Run.cfg st)) = t)
    /\ Settings.timeout_ok t = false
    /\ Settings.load e = Raise (Exn ValidationError "http_timeout_seconds")) envs.
Proof.
  repeat constructor; eexists; split; reflexivity.
Qed.

(** ** Task source *)

Section TaskSourceFacts.
Import KafkaConsumerWrapper Run Trace.
Context {payload : Type}.
Variable json_loads : list byte -> result payload.
Variable FetchTask_validate : payload -> result FetchTask.

Local Abbreviation deserialize := (deserialize json_loads FetchTask_validate).
Local Abbreviation on_getone := (on_getone json_loads FetchTask_validate).
Local Abbreviation get_tasks_live := (get_tasks_live json_loads FetchTask_validate).
Local Abbreviation step := (step json_loads FetchTask_validate).
Local Abbreviation steps := (steps json_loads FetchTask_validate).
Local Abbreviation valid_task := (valid_task json_loads FetchTask_validate).
Local Abbreviation complaint := (complaint json_loads FetchTask_validate).
Local Abbreviation malformed := (malformed json_loads FetchTask_validate).
Local Abbreviation ordinary := (ordinary json_loads FetchTask_validate).

Lemma on_getone_valid (m : message) (task : FetchTask) :
  deserialize m = Return task -> on_getone (Return m) = Yield task.
Proof. unfold KafkaConsumerWrapper.on_getone. now intros ->. Qed.

Lemma on_getone_malformed (m : message) (e : exn) :
  deserialize m = Raise e -> is_Exception (exc_cls e) = true ->
  on_getone (Return m) = Skip (invalid_message e).
Proof. unfold KafkaConsumerWrapper.on_getone. now intros -> ->. Qed.

Lemma omap_step {A B} (f : A -> option B) (x : A) (l : list A) :
  omap f (x :: l) = match f x with Some y => y :: omap f l | None => omap f l end.
Proof. reflexivity. Qed.

Lemma get_tasks_live_deliveries (msgs : list message) :
  Forall ordinary msgs ->
  get_tasks_live (map Return msgs) = (omap valid_task msgs, omap complaint msgs, Pending).
Proof.
  induction 1 as [| m msgs Hm _ IH]; [reflexivity |].
  cbn [map KafkaConsumerWrapper.get_tasks_live]. rewrite !omap_step.
  unfold Trace.valid_task at 1, Trace.complaint at 1.
  destruct (deserialize m) as [task | e] eqn:E.
  - rewrite (on_getone_valid m task E), IH. reflexivity.
  - rewrite (on_getone_malformed m e E (Hm e E)), IH. reflexivity.
Qed.

Lemma emit_emit (st : state) (a b : list obs) : emit b (emit a st) = emit (a ++ b)%list st.
Proof. unfold emit. simpl. now rewrite app_assoc. Qed.

Lemma emit_nil (st : state) : emit [] st = st.
Proof. destruct st. unfold emit. simpl. now rewrite app_nil_r. Qed.

Lemma steps_skip_malformed (bad : list message) (st : state) :
  now st = AwaitingGetone -> Forall malformed bad ->
  steps st (map delivered bad) = emit (map Log (omap complaint bad)) st.
Proof.
  intros Hnow Hbad. revert st Hnow.
  induction Hbad as [| m bad [e [He Hcls]] _ IH]; intros st Hnow.
  - simpl. now rewrite emit_nil.
  - cbn [map]. rewrite omap_step. unfold Run.steps in *. cbn [fold_left].
    unfold Trace.complaint at 1. rewrite He. cbn [map].
    unfold Run.step at 2. rewrite Hnow. cbn [delivered].
    rewrite (on_getone_malformed m e He Hcls), IH by exact Hnow.
    now rewrite emit_emit.
Qed.


End TaskSourceFacts.

(** ** Records *)

Lemma fetch_invariant (w : Fetcher.world) (task : FetchTask) (doc : PageDocument) ls :
  Fetcher.fetch w task = (Return doc, ls) -> record_invariant doc.
Proof.
  unfold Fetcher.fetch.
  destruct (Fetcher.get w) as [resp | e]; [| destruct (is_Exception _)];
    intros H; inversion H; subst; split; reflexivity.
Qed.

Lemma extract_shape (b : BrowserWorker.session) (u : string) (d : gmap string pyval) ls :
  BrowserWorker.extract b u = (Return d, ls) ->
  exists q a, d = BrowserWorker.result_dict q a.
Proof.
  unfold BrowserWorker.extract.
  destruct (BrowserWorker.driver_get b); [| discriminate].
  destruct (BrowserWorker.question_el b) as [[tq | eq] |];
    destruct (BrowserWorker.answer_el b) as [[ta | ea] |];
    try destruct (is_Exception _);
    intros H; inversion H; eauto.
Qed.

Lemma update_other (doc : PageDocument) (q a : option string) (k : string) :
  k <> "question" -> k <> "answer" ->
  Run.update doc (BrowserWorker.result_dict q a) !! k = doc !! k.
Proof.
  intros Hq Ha. unfold Run.update, BrowserWorker.result_dict.
  rewrite lookup_union_r; [reflexivity |].
  rewrite !lookup_insert_ne by congruence. apply lookup_empty.
Qed.

Lemma update_invariant (doc : PageDocument) (q a : option string) :
  record_invariant doc -> record_invariant (Run.update doc (BrowserWorker.result_dict q a)).
Proof.
  unfold record_invariant, is_None, Run.doc_get.
  now rewrite !update_other by discriminate.
Qed.

Lemma extraction_invariant (browser : bool) (b : BrowserWorker.session)
    (doc doc' : PageDocument) ls :
  Run.extraction browser b doc = (Return doc', ls) ->
  record_invariant doc -> record_invariant doc'.
Proof.
  unfold Run.extraction. intros H Hinv.
  destruct (_ && _ && _).
  - destruct (BrowserWorker.extract b (Run.doc_url doc)) as [[d | e] ls0] eqn:E.
    + apply extract_shape in E as (q & a & ->).
      inversion H; subst. now apply update_invariant.
    + destruct (is_Exception _); inversion H; now subst.
  - inversion H; now subst.
Qed.

Lemma Forall_benign_logs (ls : list log_entry) : Forall Trace.benign (map Run.Log ls).
Proof. induction ls; constructor; simpl; auto. Qed.

Lemma process_benign (st : Run.state) task w b s :
  Forall Trace.benign (fst (fst (Run.process st task w b s))).
Proof.
  unfold Run.process.
  destruct (Fetcher.fetch w task) as [[fetched | e] ls] eqn:Ef;
    [| apply Forall_benign_logs].
  destruct (Run.extraction _ b fetched) as [[page_doc | e] ls'] eqn:Ee.
  - assert (Hinv : record_invariant page_doc).
    { eapply extraction_invariant; [exact Ee |]. eapply fetch_invariant; exact Ef. }
    destruct (MongoStore.save_page _ s page_doc) as [[u | e] store']; cbn [fst];
      rewrite !Forall_app; repeat split; try apply Forall_benign_logs;
      repeat (first [exact Hinv | exact I | apply List.Forall_cons | apply List.Forall_nil]).
  - cbn [fst]. rewrite Forall_app. split; apply Forall_benign_logs.
Qed.

(** ** The worker as a transition system *)

Section RunFacts.
Import KafkaConsumerWrapper Run Trace.
Context {payload : Type}.
Variable json_loads : list byte -> result payload.
Variable FetchTask_validate : payload -> result FetchTask.

Local Abbreviation step := (step json_loads FetchTask_validate).
Local Abbreviation steps := (steps json_loads FetchTask_validate).

Lemma step_transition (st : state) (ev : event) :
  step st ev = st \/ transition st (step st ev).
Proof.
  unfold Run.step.
  destruct (now st) eqn:Hnow; destruct ev; try (left; reflexivity);
    try (right; apply T_signal; unfold running; rewrite Hnow; exact I).
  - right. destruct (on_getone _ _ r).
    + now apply T_take.
    + now apply T_skip.
    + apply T_end. now left.
    + apply T_end. now left.
  - right. apply T_end. now right.
  - right. pose proof (process_benign st task w b s) as Hb.
    destruct (process st task w b s) as [[os store'] r]. cbn [fst] in Hb.
    change (shutdown_event (emit (os ++ [Leave task])%list (set_store store' st)))
      with (shutdown_event st).
    destruct r as [u | e]; [destruct (shutdown_event st) eqn:Hsd |].
    + now apply T_break.
    + now apply T_next.
    + now apply T_abort.
Qed.

Lemma steps_invariant (Inv : state -> Prop) :
  (forall st st', transition st st' -> Inv st -> Inv st') ->
  forall evs st, Inv st -> Inv (steps st evs).
Proof.
  intros Hpres. induction evs as [| ev evs IH]; intros st Hst; [exact Hst |].
  unfold Run.steps in *. cbn [fold_left]. apply IH.
  destruct (step_transition st ev) as [-> | Ht]; [exact Hst | eauto].
Qed.

Lemma steps_app (st : state) (a b : list event) :
  steps st (a ++ b)%list = steps (steps st a) b.
Proof. unfold Run.steps. apply fold_left_app. Qed.

End RunFacts.

(** ** Facts about traces *)

Section TraceFacts.
Import Run Trace.

Lemma entered_app (a b : list obs) : entered (a ++ b) = (entered a ++ entered b)%list.
Proof. induction a as [| o a IH]; [reflexivity |]. destruct o; simpl; now rewrite IH. Qed.

Lemma closes_app (a b : list obs) : closes (a ++ b) = (closes a ++ closes b)%list.
Proof. induction a as [| o a IH]; [reflexivity |]. destruct o; simpl; now rewrite IH. Qed.

Lemma persisted_app (a b : list obs) : persisted (a ++ b) = (persisted a ++ persisted b)%list.
Proof. induction a as [| o a IH]; [reflexivity |]. destruct o; simpl; now rewrite IH. Qed.

Lemma after_shutdown_app (a b : list obs) :
  after_shutdown (a ++ b)
  = match after_shutdown a with
    | Some tl => Some (tl ++ b)%list
    | None => after_shutdown b
    end.
Proof. induction a as [| o a IH]; [reflexivity |]. destruct o; simpl; now rewrite ?IH. Qed.

Lemma occupancy_app (c : Z) (a b : list obs) :
  occupancy c (a ++ b) = occupancy (occupancy c a) b.
Proof. revert c. induction a as [| o a IH]; intros c; simpl; [reflexivity | apply IH]. Qed.

Lemma peak_app (c : Z) (a b : list obs) :
  peak c (a ++ b) = Z.max (peak c a) (peak (occupancy c a) b).
Proof.
  revert c. induction a as [| o a IH]; intros c; simpl.
  - destruct b; simpl; lia.
  - rewrite IH. lia.
Qed.

Lemma peak_ge (c : Z) (tr : list obs) : c <= peak c tr.
Proof. destruct tr; simpl; lia. Qed.

(** the peak bounds the occupancy at every point of the trace *)
Lemma peak_prefix (c : Z) (a b : list obs) : occupancy c a <= peak c (a ++ b).
Proof. rewrite peak_app. pose proof (peak_ge (occupancy c a) b). lia. Qed.

Lemma benign_entered (os : list obs) : Forall benign os -> entered os = [].
Proof. induction 1 as [| o os Ho _ IH]; [reflexivity |]. destruct o; simpl in *; tauto. Qed.

Lemma benign_closes (os : list obs) : Forall benign os -> closes os = [].
Proof. induction 1 as [| o os Ho _ IH]; [reflexivity |]. destruct o; simpl in *; tauto. Qed.

Lemma benign_after_shutdown (os : list obs) : Forall benign os -> after_shutdown os = None.
Proof. induction 1 as [| o os Ho _ IH]; [reflexivity |]. destruct o; simpl in *; tauto. Qed.

Lemma benign_occupancy (c : Z) (os : list obs) : Forall benign os -> occupancy c os = c.
Proof.
  induction 1 as [| o os Ho _ IH]; [reflexivity |].
  destruct o; simpl in *; try tauto; now rewrite Z.add_0_r.
Qed.

Lemma benign_peak (c : Z) (os : list obs) : Forall benign os -> peak c os = c.
Proof.
  induction 1 as [| o os Ho _ IH]; [reflexivity |].
  destruct o; simpl in *; try tauto; rewrite Z.add_0_r, IH; lia.
Qed.

Lemma benign_persisted (os : list obs) :
  Forall benign os -> Forall record_invariant (persisted os).
Proof.
  induction 1 as [| o os Ho _ IH]; [constructor |].
  destruct o; simpl in *; try tauto. now constructor.
Qed.

Lemma cleanup_benign_like (st : state) :
  entered (cleanup st) = [] /\ persisted (cleanup st) = []
  /\ after_shutdown (cleanup st) = None
  /\ closes (cleanup st) = close_order (browser_worker st)
  /\ (forall c, occupancy c (cleanup st) = c) /\ (forall c, peak c (cleanup st) = c).
Proof.
  unfold cleanup, close_order.
  destruct (consumer st), (browser_worker st); simpl;
    repeat split; intros; rewrite ?Z.add_0_r; lia.
Qed.

End TraceFacts.

(** ** Invariants of the transitions *)

Section Invariants.
Import KafkaConsumerWrapper Run Trace.

Ltac project_trace :=
  cbn [trace finish left take_up emit set_now set_store set_shutdown set_samples
       now shutdown_event consumer browser_worker samples store cfg] in *;
  rewrite ?entered_app, ?closes_app, ?persisted_app, ?occupancy_app, ?peak_app.

Ltac use_benign H :=
  rewrite ?(benign_entered _ H), ?(benign_closes _ H), ?(benign_after_shutdown _ H),
    ?(benign_occupancy _ _ H), ?(benign_peak _ _ H).

Lemma cleanup_left (st : state) task os store' :
  cleanup (left st task os store') = cleanup st.
Proof. reflexivity. Qed.

Ltac norm_trace st H :=
  project_trace; rewrite ?cleanup_left in *;
  destruct (cleanup_benign_like st) as (Hce & Hcp & Hca & Hcc & Hco & Hck);
  repeat (progress (project_trace; use_benign H;
                    rewrite ?Hce, ?Hcp, ?Hca, ?Hcc, ?Hco, ?Hck)).

Lemma pull_cases (st : state) :
  (consumer st = true /\ pull st = set_now AwaitingGetone st)
  \/ (consumer st = false /\ samples st = [] /\ pull st = set_now AwaitingSleep st)
  \/ (exists u rest, consumer st = false /\ samples st = u :: rest
        /\ pull st = take_up (synthetic_task u) (set_samples rest st)).
Proof.
  unfold pull. destruct (consumer st); [now left | right].
  destruct (samples st) as [| u rest]; [now left | right; eauto].
Qed.

Lemma occupancy_preserved (st st' : state) :
  transition st st' -> occupancy_inv st -> occupancy_inv st'.
Proof.
  unfold occupancy_inv, phase_occupancy.
  intros Ht [Hocc Hpeak]; inversion Ht; subst; clear Ht.
  - project_trace. rewrite Hocc. simpl. split; [lia |].
    destruct (now st); lia.
  - project_trace. rewrite Hocc, H. simpl. lia.
  - project_trace. rewrite Hocc, H. simpl. lia.
  - assert (Hnil : Forall benign []) by constructor.
    norm_trace st Hnil. rewrite Hocc. destruct H as [-> | ->]; lia.
  - norm_trace st H0. rewrite Hocc, H. simpl. lia.
  - norm_trace st H0. rewrite Hocc, H. simpl. lia.
  - destruct (pull_cases (left st task os store')) as [[_ ->] | [[_ [_ ->]] | (u & rest & _ & _ & ->)]];
      norm_trace st H0; rewrite Hocc, H; simpl; lia.
Qed.

Lemma closes_preserved (st st' : state) :
  transition st st' -> closes_inv st -> closes_inv st'.
Proof.
  unfold closes_inv.
  intros Ht Hc; inversion Ht; subst; clear Ht.
  - project_trace. rewrite Hc. unfold running in H.
    destruct (now st); simpl; try reflexivity; contradiction.
  - project_trace. rewrite Hc, H. reflexivity.
  - project_trace. rewrite Hc, H. reflexivity.
  - assert (Hnil : Forall benign []) by constructor.
    norm_trace st Hnil. rewrite Hc. destruct H as [-> | ->]; reflexivity.
  - norm_trace st H0. rewrite Hc, H. reflexivity.
  - norm_trace st H0. rewrite Hc, H. reflexivity.
  - destruct (pull_cases (left st task os store')) as [[_ ->] | [[_ [_ ->]] | (u & rest & _ & _ & ->)]];
      norm_trace st H0; rewrite Hc, H; reflexivity.
Qed.

Lemma persist_preserved (st st' : state) :
  transition st st' -> persist_inv st -> persist_inv st'.
Proof.
  unfold persist_inv.
  intros Ht Hp; inversion Ht; subst; clear Ht.
  - project_trace. simpl. now rewrite app_nil_r.
  - project_trace. simpl. now rewrite app_nil_r.
  - project_trace. simpl. now rewrite app_nil_r.
  - assert (Hnil : Forall benign []) by constructor.
    norm_trace st Hnil. now rewrite app_nil_r.
  - norm_trace st H0. simpl. rewrite !app_nil_r.
    apply Forall_app. split; [exact Hp | now apply benign_persisted].
  - norm_trace st H0. simpl. rewrite !app_nil_r.
    apply Forall_app. split; [exact Hp | now apply benign_persisted].
  - destruct (pull_cases (left st task os store')) as [[_ ->] | [[_ [_ ->]] | (u & rest & _ & _ & ->)]];
      norm_trace st H0; simpl; rewrite ?app_nil_r;
      (apply Forall_app; split; [exact Hp | now apply benign_persisted]).
Qed.

Lemma degraded_preserved (st st' : state) :
  transition st st' -> degraded_inv st -> degraded_inv st'.
Proof.
  unfold degraded_inv.
  intros Ht Hd; inversion Ht; subst; clear Ht.
  - project_trace. simpl. rewrite app_nil_r. exact Hd.
  - project_trace. intros Hc. destruct (Hd Hc) as [Hn _]. contradiction.
  - project_trace. intros Hc. destruct (Hd Hc) as [Hn _]. contradiction.
  - assert (Hnil : Forall benign []) by constructor.
    norm_trace st Hnil. rewrite app_nil_r. intros Hc. destruct (Hd Hc) as [_ He].
    split; [discriminate | exact He].
  - norm_trace st H0. simpl. rewrite !app_nil_r. intros Hc. destruct (Hd Hc) as [_ He].
    split; [discriminate | exact He].
  - norm_trace st H0. simpl. rewrite !app_nil_r. intros Hc. destruct (Hd Hc) as [_ He].
    split; [discriminate | exact He].
  - destruct (pull_cases (left st task os store'))
      as [[Hc' ->] | [[_ [Hs ->]] | (u & rest & _ & Hs & ->)]];
      norm_trace st H0; simpl; rewrite ?app_nil_r; intros Hc.
    + congruence.
    + destruct (Hd Hc) as [_ He]. split; [discriminate | exact He].
    + destruct (Hd Hc) as [_ He]. split; [discriminate |].
      rewrite Hs in He. rewrite <- app_assoc. exact He.
Qed.

Lemma shutdown_preserved (st st' : state) :
  transition st st' -> shutdown_inv st -> shutdown_inv st'.
Proof.
  unfold shutdown_inv, waiting.
  intros Ht Hs; inversion Ht; subst; clear Ht.
  - project_trace. rewrite after_shutdown_app.
    destruct (after_shutdown (trace st)) as [tl |].
    + rewrite entered_app. simpl. rewrite app_nil_r. tauto.
    + simpl. repeat split; auto.
  - project_trace. rewrite after_shutdown_app.
    destruct (after_shutdown (trace st)) as [tl |]; [| exact Hs].
    destruct Hs as (Hsd & _ & Hw). rewrite entered_app, (Hw (or_introl H)). simpl.
    repeat split; auto. intros [Hx | Hx]; discriminate Hx.
  - project_trace. rewrite after_shutdown_app.
    destruct (after_shutdown (trace st)) as [tl |]; [| exact Hs].
    rewrite entered_app. simpl. rewrite app_nil_r. exact Hs.
  - assert (Hnil : Forall benign []) by constructor.
    norm_trace st Hnil. rewrite after_shutdown_app, Hca.
    destruct (after_shutdown (trace st)) as [tl |]; [| exact Hs].
    rewrite entered_app, Hce, app_nil_r. destruct Hs as (Hsd & Hl & _).
    repeat split; auto. intros [Hx | Hx]; discriminate Hx.
  - norm_trace st H0. rewrite !after_shutdown_app, Hca. use_benign H0. cbn [after_shutdown].
    destruct (after_shutdown (trace st)) as [tl |]; [| exact Hs].
    rewrite !entered_app. use_benign H0. rewrite Hce. cbn [entered]. rewrite ?app_nil_r.
    cbn [app].
    destruct Hs as (Hsd & Hl & _).
    repeat split; auto. intros [Hx | Hx]; discriminate Hx.
  - norm_trace st H0. rewrite !after_shutdown_app, Hca. use_benign H0. cbn [after_shutdown].
    destruct (after_shutdown (trace st)) as [tl |]; [| congruence].
    rewrite !entered_app. use_benign H0. rewrite Hce. cbn [entered]. rewrite ?app_nil_r.
    cbn [app].
    destruct Hs as (Hsd & Hl & _).
    repeat split; auto. intros [Hx | Hx]; discriminate Hx.
  - destruct (after_shutdown (trace st)) as [tl |] eqn:Ha; [destruct Hs; congruence |].
    destruct (pull_cases (left st task os store'))
      as [[_ ->] | [[_ [_ ->]] | (u & rest & _ & _ & ->)]];
      norm_trace st H0; rewrite !after_shutdown_app, ?Ha; use_benign H0; simpl;
      exact Hs.
Qed.

Lemma draining_preserved (st st' : state) :
  transition st st' -> draining_inv st -> draining_inv st'.
Proof.
  unfold draining_inv, waiting.
  intros Ht (Hsd & Hnw & tl & Ha & He); inversion Ht; subst; clear Ht.
  - project_trace. rewrite after_shutdown_app, Ha.
    repeat split; auto. eexists. split; [reflexivity |].
    now rewrite entered_app, He.
  - tauto.
  - tauto.
  - tauto.
  - norm_trace st H0. rewrite !after_shutdown_app, Ha.
    repeat split; auto; [intros [Hx | Hx]; discriminate Hx |].
    eexists. split; [reflexivity |].
    rewrite !entered_app, He, Hce. use_benign H0. reflexivity.
  - norm_trace st H0. rewrite !after_shutdown_app, Ha.
    repeat split; auto; [intros [Hx | Hx]; discriminate Hx |].
    eexists. split; [reflexivity |].
    rewrite !entered_app, He, Hce. use_benign H0. reflexivity.
  - congruence.
Qed.

End Invariants.

(** ** Start of a run *)

Section StartFacts.
Import KafkaConsumerWrapper Run Trace.

Lemma start_shape (s : startup) (st : state) :
  start s = Return st ->
  exists c store ls,
    Config_load (env s) = Return c /\
    st = pull (mkState c (aiokafka s) sample_urls (selenium s) store false
                       AwaitingGetone (map Log ls)).
Proof.
  unfold start.
  destruct (Config_load (env s)) as [c | e]; [| discriminate].
  destruct (if selenium s then chrome s else Return tt); [| discriminate].
  destruct (MongoStore.init c (motor s)) as [store ls].
  destruct (aiokafka s).
  - destruct (broker s); [| discriminate].
    intros H. injection H as <-.
    exists c, store,
      (LogEntry INFO "service_starting" [("config", config_dump c)] :: ls
       ++ [LogEntry INFO "kafka_consumer_started" [("topic", VStr (kafka_topic c))]])%list.
    split; [reflexivity |]. now rewrite map_cons, map_app.
  - intros H. injection H as <-.
    exists c, store,
      (LogEntry INFO "service_starting" [("config", config_dump c)] :: ls
       ++ [LogEntry WARNING "aiokafka not installed; using synthetic tasks" []])%list.
    split; [reflexivity |]. now rewrite map_cons, map_app.
Qed.

Lemma start_invariants (s : startup) (st : state) :
  start s = Return st ->
  occupancy_inv st /\ closes_inv st /\ shutdown_inv st /\ degraded_inv st /\ persist_inv st
  /\ consumer st = aiokafka s /\ browser_worker st = selenium s.
Proof.
  intros H. apply start_shape in H as (c & store & ls & _ & ->).
  pose proof (Forall_benign_logs ls) as Hb.
  unfold occupancy_inv, closes_inv, shutdown_inv, degraded_inv, persist_inv,
    phase_occupancy, waiting, pull.
  cbn [consumer samples sample_urls].
  destruct (aiokafka s);
    cbn [trace take_up emit set_now set_samples now shutdown_event consumer
         browser_worker samples];
    rewrite ?entered_app, ?closes_app, ?persisted_app, ?occupancy_app, ?peak_app,
      ?after_shutdown_app;
    rewrite ?(benign_entered _ Hb), ?(benign_closes _ Hb), ?(benign_after_shutdown _ Hb),
      ?(benign_occupancy _ _ Hb), ?(benign_peak _ _ Hb);
    simpl; repeat split; auto; try lia; try discriminate;
    try (apply Forall_app; split; [| constructor]);
    now apply benign_persisted.
Qed.

End StartFacts.

(** ** The pipeline *)

Section PipelineFacts.
Import KafkaConsumerWrapper Run Trace.
Context {payload : Type}.
Variable json_loads : list byte -> result payload.
Variable FetchTask_validate : payload -> result FetchTask.

Local Abbreviation step := (step json_loads FetchTask_validate).
Local Abbreviation steps := (steps json_loads FetchTask_validate).
Local Abbreviation deserialize := (deserialize json_loads FetchTask_validate).
Local Abbreviation get_tasks := (get_tasks json_loads FetchTask_validate).

Lemma step_set_cfg (c : Config) (st : state) (ev : event) :
  step (set_cfg c st) ev = set_cfg c (step st ev).
Proof.
  unfold Run.step. cbn [now set_cfg].
  destruct (now st); destruct ev; try reflexivity.
  - destruct (on_getone _ _ r); reflexivity.
  - change (process (set_cfg c st) task w b s) with (process st task w b s).
    destruct (process st task w b s) as [[os store'] [u | e]]; cbn [shutdown_event emit set_store set_cfg];
      [destruct (shutdown_event st) |]; try reflexivity.
    unfold pull. cbn [consumer samples emit set_store set_cfg].
    destruct (consumer st); [reflexivity |].
    destruct (samples st); reflexivity.
Qed.

Lemma steps_set_cfg (c : Config) (evs : list event) (st : state) :
  steps (set_cfg c st) evs = set_cfg c (steps st evs).
Proof.
  revert st. induction evs as [| ev evs IH]; intros st; [reflexivity |].
  unfold Run.steps in *. cbn [fold_left]. now rewrite step_set_cfg, IH.
Qed.

(** C2.  Every record satisfies the invariant: the one [fetch] returns,
    the one the extraction step hands on, and every record a run passes to
    the store. *)
Theorem record_invariant_everywhere :
  (forall w task (doc : PageDocument) ls,
      Fetcher.fetch w task = (Return doc, ls) -> record_invariant doc) /\
  (forall browser b (doc doc' : PageDocument) ls,
      record_invariant doc ->
      extraction browser b doc = (Return doc', ls) -> record_invariant doc') /\
  (forall (s : startup) (st : state) (evs : list event),
      start s = Return st ->
      Forall record_invariant (persisted (trace (steps st evs)))).
Proof.
  split; [exact fetch_invariant |].
  split; [intros; eapply extraction_invariant; eassumption |].
  intros s st evs Hs.
  apply (steps_invariant json_loads FetchTask_validate persist_inv persist_preserved).
  now apply start_invariants in Hs.
Qed.

(** C3, as the code has it.  The worker holds one task at a time: at every
    point of every run at most one task is between entering and leaving
    the loop body, however many tasks are waiting.  The bound does not come
    from a limiter: no step reads the configuration, so the run is the same
    for every [max_concurrent_fetches], and the ceiling N holds exactly
    because 1 <= N when that is so. *)
Theorem worker_one_task_at_a_time (s : startup) (st : state) (evs : list event) :
  start s = Return st ->
  let tr := trace (steps st evs) in
  peak 0 tr <= 1 /\
  (forall a b, tr = (a ++ b)%list -> occupancy 0 a <= 1) /\
  (forall c, steps (set_cfg c st) evs = set_cfg c (steps st evs)) /\
  (1 <= max_concurrent_fetches (cfg st) -> peak 0 tr <= max_concurrent_fetches (cfg st)).
Proof.
  intros Hs tr.
  assert (Hinv : occupancy_inv (steps st evs)).
  { apply (steps_invariant json_loads FetchTask_validate occupancy_inv occupancy_preserved).
    now apply start_invariants in Hs. }
  destruct Hinv as [_ Hpeak]. fold tr in Hpeak.
  split; [exact Hpeak |].
  split; [| split].
  - intros a b Hab. pose proof (peak_prefix 0 a b) as Hp. rewrite <- Hab in Hp. lia.
  - intros c. apply steps_set_cfg.
  - lia.
Qed.

(** C6.  Without a consumer the generator yields the tasks of the two
    sample URLs, https://example.org then https://www.python.org, and
    returns; the tasks a degraded run takes up are always a prefix of these
    two.  With a consumer, over the messages the queue delivers, it never
    returns: it yields one task per valid message, without bound, and is
    then waiting for the next. *)
Theorem degraded_tasks_bounded :
  (forall feed,
      get_tasks false feed
      = ([ mkFetchTask "https://example.org" None None;
           mkFetchTask "https://www.python.org" None None ], [], Returned)) /\
  (forall (s : startup) (st : state) (evs : list event),
      start s = Return st -> aiokafka s = false ->
      exists rest,
        [ mkFetchTask "https://example.org" None None;
          mkFetchTask "https://www.python.org" None None ]
        = (entered (trace (steps st evs)) ++ rest)%list) /\
  (forall msgs,
      Forall (ordinary json_loads FetchTask_validate) msgs ->
      snd (get_tasks true (map Return msgs)) = Pending) /\
  (forall m task (n : nat),
      deserialize m = Return task ->
      get_tasks true (repeat (Return m) n) = (repeat task n, [], Pending)).
Proof.
  split; [reflexivity |].
  split; [| split].
  - intros s st evs Hs Hk.
    assert (Hinv : degraded_inv (steps st evs)).
    { apply (steps_invariant json_loads FetchTask_validate degraded_inv degraded_preserved).
      now apply start_invariants in Hs. }
    assert (Hc : consumer (steps st evs) = false).
    { apply (steps_invariant json_loads FetchTask_validate (fun x => consumer x = false)).
      - intros x x' Ht Hx. inversion Ht; subst; try exact Hx.
        unfold pull. cbn [consumer left emit set_store]. rewrite Hx.
        destruct (samples _); exact Hx.
      - apply start_invariants in Hs. destruct Hs as (_ & _ & _ & _ & _ & -> & _). exact Hk. }
    destruct (Hinv Hc) as [_ He]. eexists. symmetry. exact He.
  - intros msgs Hm. unfold KafkaConsumerWrapper.get_tasks.
    now rewrite (get_tasks_live_deliveries json_loads FetchTask_validate msgs Hm).
  - intros m task n Hm. unfold KafkaConsumerWrapper.get_tasks.
    induction n as [| n IH]; [reflexivity |].
    cbn [repeat KafkaConsumerWrapper.get_tasks_live].
    now rewrite (on_getone_valid json_loads FetchTask_validate m task Hm), IH.
Qed.

End PipelineFacts.

Section ShutdownFacts.
Import KafkaConsumerWrapper Run Trace.
Context {payload : Type}.
Variable json_loads : list byte -> result payload.
Variable FetchTask_validate : payload -> result FetchTask.

Local Abbreviation step := (step json_loads FetchTask_validate).
Local Abbreviation steps := (steps json_loads FetchTask_validate).

Lemma persisted_logs (ls : list log_entry) : persisted (map Log ls) = [].
Proof. induction ls; simpl; auto. Qed.

Lemma process_returns (st : state) task w b d :
  snd (process st task w b d) = Return tt ->
  exists doc, persisted (fst (fst (process st task w b d))) = [doc].
Proof.
  unfold process.
  destruct (Fetcher.fetch w task) as [[fetched | e] ls]; [| discriminate].
  destruct (extraction _ b fetched) as [[page_doc | e] ls']; [| discriminate].
  destruct (MongoStore.save_page _ d page_doc) as [[u | e] store']; [| discriminate].
  intros _. exists page_doc. cbn [fst].
  now rewrite !persisted_app, !persisted_logs.
Qed.

Lemma signal_in_flight (st : state) (task : FetchTask) (name : string) :
  now st = InFlight task ->
  step st (Signal name) = set_shutdown (emit (signal_obs name) st).
Proof. unfold Run.step. now intros ->. Qed.

Lemma task_done_after_signal (st : state) (task : FetchTask) (name : string) w b d :
  now st = InFlight task ->
  step (step st (Signal name)) (TaskDone w b d)
  = let '(os, store', r) := process st task w b d in
    finish (match r with Raise e => Raise e | Return _ => Return 0 end)
           (left (set_shutdown (emit (signal_obs name) st)) task os store').
Proof.
  intros Hnow. rewrite (signal_in_flight st task name Hnow).
  unfold Run.step. cbn [now set_shutdown emit]. rewrite Hnow.
  change (process (set_shutdown (emit (signal_obs name) st)) task w b d)
    with (process st task w b d).
  destruct (process st task w b d) as [[os store'] [u | e]]; reflexivity.
Qed.


End ShutdownFacts.

(** ** The properties at concrete inputs *)

Section Concrete.
Import KafkaConsumerWrapper Run Trace Examples.

Lemma record_invariant_everywhere_witness :
  exists doc : PageDocument,
    Fetcher.fetch w_refused task_unreachable
    = (Return doc,
       [LogEntry ERROR "fetch_failed"
          [("url", VStr "https://unreachable.invalid");
           ("error", VStr "[Errno 111] Connection refused")]])
    /\ record_invariant doc.
Proof.
  eexists. split; [reflexivity |].
  exact (proj1 (record_invariant_everywhere toy_loads toy_validate)
           w_refused task_unreachable _ _ eq_refl).
Defined.

Lemma worker_one_task_at_a_time_witness :
  exists st,
    start (no_infrastructure deployed) = Return st /\
    peak 0 (trace (steps toy_loads toy_validate st
                     [TaskDone w_ok quiet_browser (Return tt); Signal "SIGINT"])) <= 1.
Proof.
  eexists. split; [reflexivity |].
  exact (proj1 (worker_one_task_at_a_time toy_loads toy_validate
                  (no_infrastructure deployed) _ _ eq_refl)).
Defined.

(** C3 as stated fails: with [MAX_CONCURRENT_FETCHES=0] the configuration
    loads, the ceiling N is 0, and the worker still has one task in its
    loop body. *)
Lemma limiter_ceiling_counterexample :
  exists st,
    start (no_infrastructure (<[ "MAX_CONCURRENT_FETCHES" := "0" ]> deployed)) = Return st /\
    max_concurrent_fetches (cfg st) = 0 /\
    now st = InFlight (mkFetchTask "https://example.org" None None) /\
    peak 0 (trace st) = 1 /\
    ~ (peak 0 (trace st) <= max_concurrent_fetches (cfg st)).
Proof.
  eexists. split; [reflexivity |].
  split; [reflexivity |]. split; [reflexivity |]. split; [reflexivity |].
  vm_compute. intros H. apply H. reflexivity.
Qed.




Lemma degraded_tasks_bounded_witness :
  get_tasks toy_loads toy_validate true (repeat (Return msg_good) 3)
  = (repeat task_quora 3, [], Pending).
Proof.
  exact (proj2 (proj2 (proj2 (degraded_tasks_bounded toy_loads toy_validate)))
           msg_good task_quora 3%nat eq_refl).
Defined.

(** A whole degraded run: both sample tasks, the second one failing to
    connect, then the generator's sleep; [run] returns 0 and has closed
    the three stages it has. *)
Example degraded_run :
  exists st,
    start (no_infrastructure deployed) = Return st /\
    let st' := steps toy_loads toy_validate st
                 [TaskDone w_ok quiet_browser (Return tt);
                  TaskDone w_refused quiet_browser (Return tt); SleepDone] in
    now st' = Exited (Return 0) /\
    entered (trace st') = map synthetic_task sample_urls /\
    length (persisted (trace st')) = 2%nat /\
    closes (trace st') = [TaskSource; FetchStage; PersistenceStage].
Proof. eexists. split; [reflexivity |]. cbv zeta. repeat split; reflexivity. Qed.

(** A quora page with a browser at hand: the extraction step adds the
    trimmed question and an absent answer and leaves the fetched fields. *)
Example extraction_merges_fields :
  exists fetched page_doc ls,
    fst (Fetcher.fetch w_ok task_quora) = Return fetched /\
    extraction true quiet_browser fetched = (Return page_doc, ls) /\
    page_doc !! "question" = Some (VStr "What is Python?") /\
    page_doc !! "answer" = Some VNone /\
    page_doc !! "status_code" = Some (VInt 200) /\
    page_doc !! "_id" = Some (VStr "q-1") /\
    map log_event ls = ["selenium_extracted"].
Proof. do 3 eexists. repeat split; reflexivity. Qed.

End Concrete.

(** * Further properties of the code *)

(** ** Loading the configuration *)

Section LoadingFacts.

Lemma parse_float_raises (s : string) (e : exn) :
  parse_float s = Raise e -> exc_cls e = ValueError.
Proof.
  unfold parse_float.
  destruct (read_sign (strip s)) as [neg body].
  destruct (read_digits 0 0 body) as [[ip ik] rest].
  destruct rest as [| c frac].
  - destruct ik; intros H; inversion H; reflexivity.
  - destruct (Ascii.eqb_spec c "."%char) as [-> | Hc].
    + destruct (read_digits 0 0 frac) as [[fp fk] rest'].
      destruct rest', (ik + fk)%nat; intros H; inversion H; reflexivity.
    + destruct c as [[] [] [] [] [] [] [] []]; intros H; inversion H; try reflexivity;
        exfalso; apply Hc; reflexivity.
Qed.

Lemma parse_int_raises (s : string) (e : exn) :
  parse_int s = Raise e -> exc_cls e = ValueError.
Proof.
  unfold parse_int.
  destruct (read_sign (strip s)) as [neg body].
  destruct (read_digits 0 0 body) as [[n k] rest].
  destruct k, rest; intros H; inversion H; reflexivity.
Qed.


(** X2.  With [HTTP_TIMEOUT_SECONDS] unset, [Settings.load] cannot fail,
    whatever the other variables hold: the timeout is the default 20.0 and
    the browser is enabled exactly when [ENABLE_BROWSER] is "true" in any
    letter case. *)
Theorem Settings_load_without_timeout (e : environ) :
  e !! "HTTP_TIMEOUT_SECONDS" = None ->
  exists s,
    Settings.load e = Return s /\
    (Settings.http_timeout_seconds s == 20)%Q /\
    Settings.mongo_uri s = getenv_or_None e "MONGO_URI" /\
    (Settings.enable_browser s = true <->
     exists v, e !! "ENABLE_BROWSER" = Some v /\ lower v = "true").
Proof.
  intros He. unfold Settings.load, getenv_default at 1. rewrite He.
  eexists. split; [reflexivity |]. split; [reflexivity |]. split; [reflexivity |].
  cbn [Settings.enable_browser]. unfold getenv_default.
  destruct (e !! "ENABLE_BROWSER") as [v |].
  - rewrite String.eqb_eq. split; [eauto |]. intros (v' & Hv & Hl). now injection Hv as <-.
  - split; [discriminate |]. intros (v' & Hv & _). discriminate.
Qed.

Lemma Settings_load_without_timeout_witness :
  exists s,
    Settings.load {[ "ENABLE_BROWSER" := "True" ]} = Return s /\
    Settings.enable_browser s = true.
Proof.
  assert (H : ({[ "ENABLE_BROWSER" := "True" ]} : environ) !! "HTTP_TIMEOUT_SECONDS" = None)
    by (vm_compute; reflexivity).
  destruct (Settings_load_without_timeout _ H) as (s & Hs & _ & _ & Hb).
  exists s. split; [exact Hs |].
  apply Hb. exists "True". split; vm_compute; reflexivity.
Defined.

(** X3.  A timeout variable that is set but empty or blank is not
    defaulted by [Settings.load]: the text goes to [float] as it is and the
    load fails with [ValueError]. *)
Theorem empty_timeout_variable (e : environ) (v : string) :
  e !! "HTTP_TIMEOUT_SECONDS" = Some v ->
  strip v = "" ->
  exists err, Settings.load e = Raise err /\ exc_cls err = ValueError.
Proof.
  intros He Hv. unfold Settings.load, getenv_default at 1. rewrite He.
  unfold parse_float. rewrite Hv. cbn.
  eexists. split; reflexivity.
Qed.

Lemma empty_timeout_variable_witness :
  exists err,
    Settings.load {[ "HTTP_TIMEOUT_SECONDS" := "  " ]} = Raise err /\
    exc_cls err = ValueError.
Proof.
  refine (empty_timeout_variable {[ "HTTP_TIMEOUT_SECONDS" := "  " ]} "  " _ eq_refl).
  vm_compute. reflexivity.
Defined.

Lemma upper_nonempty (s : string) : s <> "" -> upper s <> "".
Proof. destruct s; [congruence | discriminate]. Qed.

Lemma getenv_or_nonempty (e : environ) (k d : string) : d <> "" -> getenv_or e k d <> "".
Proof.
  intros Hd. unfold getenv_or, str_or. destruct (e !! k) as [s |]; [| exact Hd].
  destruct (String.eqb_spec s ""); assumption.
Qed.

Lemma getenv_or_None_nonempty (e : environ) (k : string) : getenv_or_None e k <> Some "".
Proof.
  unfold getenv_or_None. destruct (e !! k) as [v |]; [| discriminate].
  destruct (String.eqb_spec v "") as [| Hv]; [discriminate |].
  intros H. injection H as H. contradiction.
Qed.





End LoadingFacts.

(** ** Trimmed text *)

Section StripFacts.
Import More.

Lemma lstrip_starts_clean (s : string) : starts_clean (lstrip s) = true.
Proof.
  induction s as [| c s IH]; [reflexivity |]. simpl.
  destruct (is_space c) eqn:E; [exact IH |]. simpl. now rewrite E.
Qed.

Lemma lstrip_clean (s : string) : starts_clean s = true -> lstrip s = s.
Proof.
  destruct s as [| c s]; [reflexivity |]. simpl.
  destruct (is_space c); [discriminate | reflexivity].
Qed.

Lemma rstrip_cons (c : ascii) (s : string) :
  rstrip (String c s)
  = match rstrip s with
    | EmptyString => if is_space c then EmptyString else String c EmptyString
    | r => String c r
    end.
Proof. reflexivity. Qed.

Lemma rstrip_idempotent (s : string) : rstrip (rstrip s) = rstrip s.
Proof.
  induction s as [| c s IH]; [reflexivity |].
  rewrite rstrip_cons. destruct (rstrip s) as [| d r] eqn:E.
  - destruct (is_space c) eqn:Ec; [reflexivity |].
    rewrite rstrip_cons. simpl. now rewrite Ec.
  - rewrite rstrip_cons, IH. reflexivity.
Qed.

Lemma rstrip_starts_clean (s : string) :
  starts_clean s = true -> starts_clean (rstrip s) = true.
Proof.
  destruct s as [| c s]; [reflexivity |]. intros H. rewrite rstrip_cons.
  destruct (rstrip s); [destruct (is_space c) |]; auto.
Qed.

Lemma strip_trimmed (s : string) : trimmed (strip s).
Proof.
  unfold trimmed, strip.
  rewrite (lstrip_clean (rstrip (lstrip s))).
  - apply rstrip_idempotent.
  - apply rstrip_starts_clean, lstrip_starts_clean.
Qed.

Lemma trimmed_inv (s : string) :
  trimmed s <-> starts_clean s = true /\ rstrip s = s.
Proof.
  unfold trimmed, strip. split.
  - intros H. assert (Hc : starts_clean s = true).
    { rewrite <- H. apply rstrip_starts_clean, lstrip_starts_clean. }
    split; [exact Hc |]. now rewrite (lstrip_clean s Hc) in H.
  - intros [Hc Hr]. now rewrite (lstrip_clean s Hc).
Qed.

Lemma rstrip_app (a b : string) :
  rstrip b <> EmptyString -> rstrip (a ++ b) = a ++ rstrip b.
Proof.
  intros Hb. induction a as [| c a IH]; [reflexivity |].
  change (String c a ++ b) with (String c (a ++ b)).
  change (String c a ++ rstrip b) with (String c (a ++ rstrip b)).
  rewrite rstrip_cons, IH.
  destruct (a ++ rstrip b) as [| d r] eqn:E; [| reflexivity].
  destruct a; simpl in E; [contradiction | discriminate].
Qed.

Lemma join_trimmed (sep : string) (parts : list string) :
  Forall (fun p => trimmed p /\ p <> EmptyString) parts ->
  trimmed (join sep parts) /\ (parts <> [] -> join sep parts <> EmptyString).
Proof.
  induction 1 as [| p parts [Hp Hne] Hrest IH]; [split; [reflexivity | congruence] |].
  destruct parts as [| q parts'].
  - simpl. split; auto.
  - destruct IH as [IHt IHn].
    assert (Hj : join sep (q :: parts') <> EmptyString) by (apply IHn; discriminate).
    change (join sep (p :: q :: parts')) with (p ++ sep ++ join sep (q :: parts')).
    apply trimmed_inv in Hp as [Hpc Hpr]. apply trimmed_inv in IHt as [_ IHr].
    split.
    + apply trimmed_inv. split.
      * destruct p; [contradiction | exact Hpc].
      * assert (Hr : rstrip (join sep (q :: parts')) <> EmptyString) by now rewrite IHr.
        assert (Hs : rstrip (sep ++ join sep (q :: parts')) <> EmptyString).
        { rewrite (rstrip_app _ _ Hr), IHr. intros E.
          destruct sep; [exact (Hj E) | discriminate E]. }
        now rewrite (rstrip_app _ _ Hs), (rstrip_app _ _ Hr), IHr.
    + intros _ E. destruct p; [contradiction | discriminate].
Qed.

Lemma get_text_trimmed (sep : string) (el : Parser.node) : trimmed (Parser.get_text sep el).
Proof.
  unfold Parser.get_text. apply join_trimmed.
  induction (Parser.strings el) as [| s l IH]; [constructor |].
  cbn [map List.filter].
  destruct (String.eqb_spec (strip s) EmptyString) as [E | E]; cbn [negb]; [exact IH |].
  constructor; [split; [apply strip_trimmed | exact E] | exact IH].
Qed.

End StripFacts.

(** ** More on the selector parser *)

Section ParserMore.
Import Parser More.

Lemma hd_error_app {A} (l1 l2 : list A) :
  hd_error (l1 ++ l2)%list = match hd_error l1 with Some x => Some x | None => hd_error l2 end.
Proof. destruct l1; reflexivity. Qed.

Lemma select_node_head (sel : selector) (n : node) :
  select_node sel n = hd_error (List.filter (node_matches sel) (descendants n)).
Proof.
  induction n as [s | t a cs IH] using node_rect'; [reflexivity |].
  cbn [select_node descendants List.filter node_matches].
  destruct (matches sel t a); [reflexivity |].
  induction IH as [| c cs' Hc _ IHcs]; [reflexivity |].
  cbn [flat_map]. rewrite List.filter_app, hd_error_app, <- Hc, <- IHcs.
  destruct (select_node sel c); reflexivity.
Qed.

Lemma select_first_head (sel : selector) (soup : list node) :
  select_first sel soup = hd_error (List.filter (node_matches sel) (flat_map descendants soup)).
Proof.
  induction soup as [| c soup IH]; [reflexivity |].
  cbn [select_first flat_map].
  rewrite List.filter_app, hd_error_app, <- IH, <- select_node_head.
  destruct (select_node sel c); reflexivity.
Qed.

(** [select_one] returns the first element, in document order, among
    those the selector picks out anywhere in the page, and nothing when
    there is none. *)
Lemma select_one_first_in_document_order (soup : list node) (s : string) :
  select_one soup s = hd_error (selected soup s).
Proof. apply select_first_head. Qed.

(** X6.  A field of the extraction is [None] exactly when its selector
    picks out no element: an element that is found but holds no text gives
    the empty string, not [None]. *)
Theorem field_none_iff_no_match (html : string) :
  (extract_question_answer html !! "question" = Some VNone
   <-> selected (BeautifulSoup html) QUESTION_SELECTOR = []) /\
  (extract_question_answer html !! "answer" = Some VNone
   <-> selected (BeautifulSoup html) ANSWER_SELECTOR = []).
Proof.
  unfold extract_question_answer, selected, select_one.
  rewrite lookup_insert_eq, lookup_insert_ne by discriminate. rewrite lookup_insert_eq.
  rewrite <- !select_first_none.
  split.
  - destruct (select_first (parse_selector QUESTION_SELECTOR) (BeautifulSoup html));
      simpl; split; congruence.
  - destruct (select_first (parse_selector ANSWER_SELECTOR) (BeautifulSoup html));
      simpl; split; congruence.
Qed.

(** X7.  Whatever the page, each extracted field is [None] or a string
    without blanks at either end: every piece of text is stripped, empty
    pieces are dropped, and the pieces are joined. *)
Theorem extracted_text_trimmed (html : string) :
  none_or_trimmed (extract_question_answer html !! "question") /\
  none_or_trimmed (extract_question_answer html !! "answer").
Proof.
  unfold extract_question_answer, none_or_trimmed.
  rewrite lookup_insert_eq, lookup_insert_ne by discriminate. rewrite lookup_insert_eq.
  split.
  - destruct (select_one (BeautifulSoup html) QUESTION_SELECTOR) as [el |]; [right | now left].
    eexists. split; [reflexivity | apply get_text_trimmed].
  - destruct (select_one (BeautifulSoup html) ANSWER_SELECTOR) as [el |]; [right | now left].
    eexists. split; [reflexivity | apply get_text_trimmed].
Qed.

Lemma take_while_all (c : ascii) (s : string) :
  split_on c s = None ->
  take_while (fun d => negb (Ascii.eqb d c)) s = (s, EmptyString).
Proof.
  induction s as [| d s IH]; [reflexivity |]. simpl.
  rewrite (Ascii.eqb_sym d c).
  destruct (Ascii.eqb c d); [discriminate |].
  destruct (split_on c s) as [[l r] |]; [discriminate |].
  intros _. cbn [negb]. now rewrite IH.
Qed.

Lemma tokenize_text (fuel : nat) (c : ascii) (s : string) :
  Ascii.eqb c "<" = false ->
  tokenize (S fuel) (String c s)
  = let '(data, rest) := take_while (fun d => negb (Ascii.eqb d "<")) (String c s) in
    TData data :: tokenize fuel rest.
Proof.
  intros H. destruct c as [[] [] [] [] [] [] [] []]; try reflexivity.
  vm_compute in H. discriminate H.
Qed.

Lemma soup_of_text (html : string) :
  split_on "<" html = None ->
  BeautifulSoup html = match html with EmptyString => [] | _ => [Text html] end.
Proof.
  intros H. unfold BeautifulSoup. destruct html as [| c s]; [reflexivity |].
  assert (Hc : Ascii.eqb c "<" = false).
  { cbn [split_on] in H. rewrite (Ascii.eqb_sym c "<"%char).
    destruct (Ascii.eqb "<" c); [discriminate H | reflexivity]. }
  cbn [String.length]. rewrite (tokenize_text _ c s Hc), (take_while_all "<" _ H).
  destruct (String.length s); reflexivity.
Qed.

(** X8.  A page without markup (no [<] at all, the empty page included)
    parses to at most one text node, and both fields are [None]. *)
Theorem text_without_markup (html : string) :
  split_on "<" html = None ->
  extract_question_answer html
  = <["question" := VNone]> (<["answer" := VNone]> ∅).
Proof.
  intros H. unfold extract_question_answer. rewrite (soup_of_text html H).
  destruct html; reflexivity.
Qed.

Lemma text_without_markup_witness :
  extract_question_answer "What is Python? Python is a programming language."
  = <["question" := VNone]> (<["answer" := VNone]> ∅).
Proof. refine (text_without_markup _ _). reflexivity. Defined.

End ParserMore.

(** ** More on the fetch stage and the browser *)

Section StageFacts.
Import More.

Lemma str_or_nonempty (o : option string) (d : string) :
  d <> "" -> str_or o d <> "".
Proof.
  intros Hd. unfold str_or. destruct o as [s |]; [| exact Hd].
  destruct (String.eqb_spec s ""); assumption.
Qed.

(** X9.  Every record [fetch] returns, for a response or for a failure,
    has the same nine keys, carries the task's URL and its priority (under
    [meta]) unchanged, and has a non-empty [_id]. *)
Theorem fetch_record_shape (w : Fetcher.world) (task : FetchTask) (doc : PageDocument) :
  fst (Fetcher.fetch w task) = Return doc ->
  dom doc = record_keys /\
  doc !! "url" = Some (VStr (url task)) /\
  doc !! "meta" = Some (VDict [("priority", of_opt_int (priority task))]) /\
  doc !! "fetched_at" = Some (VStr (Fetcher.gmtime w)) /\
  exists i, doc !! "_id" = Some (VStr i) /\ i <> "".
Proof.
  intros H.
  assert (Hid : str_or (id task) (hex (Fetcher.os_urandom w 8)) <> "").
  { apply str_or_nonempty. intros E.
    pose proof (hex_length (Fetcher.os_urandom w 8)) as Hl.
    rewrite E, os_urandom_length in Hl. discriminate Hl. }
  assert (Hform : exists sc cl html err,
             doc = list_to_map
                     [ ("_id", VStr (str_or (id task) (hex (Fetcher.os_urandom w 8))));
                       ("url", VStr (url task));
                       ("status_code", sc);
                       ("fetched_at", VStr (Fetcher.gmtime w));
                       ("latency_ms", VFloat (round2 (Fetcher.latency_ms w)));
                       ("content_length", cl);
                       ("html", html);
                       ("error", err);
                       ("meta", VDict [("priority", of_opt_int (priority task))]) ]).
  { unfold Fetcher.fetch in H.
    destruct (Fetcher.get w) as [resp | e]; [| destruct (is_Exception _)];
      [| | discriminate H];
      do 4 eexists; symmetry; exact (f_equal (fun r => match r with
                                                      | Return d => d
                                                      | Raise _ => doc
                                                      end) H). }
  destruct Hform as (sc & cl & html & err & ->).
  split; [rewrite (dom_list_to_map_L (M := gmap string)); reflexivity |].
  repeat split; eauto.
Qed.

Lemma fetch_record_shape_witness :
  exists doc : PageDocument,
    fst (Fetcher.fetch Examples.w_refused Examples.task_empty_id) = Return doc /\
    doc !! "meta" = Some (VDict [("priority", VInt 5)]).
Proof.
  eexists. split; [reflexivity |].
  exact (proj1 (proj2 (proj2
    (fetch_record_shape Examples.w_refused Examples.task_empty_id _ eq_refl)))).
Defined.

Lemma extract_returns (s : BrowserWorker.session) (u : string)
    (d : gmap string pyval) (ls : list log_entry) :
  BrowserWorker.extract s u = (Return d, ls) ->
  dom d = {[ "question"; "answer" ]} /\
  none_or_trimmed (d !! "question") /\
  none_or_trimmed (d !! "answer") /\
  exists ls' l, ls = (ls' ++ [l])%list /\ log_event l = "selenium_extracted".
Proof.
  assert (Hd : forall q a,
             dom (BrowserWorker.result_dict q a) = ({[ "question"; "answer" ]} : gset string)).
  { intros q a. unfold BrowserWorker.result_dict.
    rewrite !dom_insert_L, dom_empty_L. set_solver. }
  assert (Hq : forall (q a : option string),
             match q with Some x => trimmed x | None => True end ->
             none_or_trimmed (BrowserWorker.result_dict q a !! "question")).
  { intros q a Ht. unfold BrowserWorker.result_dict. rewrite lookup_insert_eq.
    destruct q; [right; eauto | now left]. }
  assert (Ha : forall (q a : option string),
             match a with Some x => trimmed x | None => True end ->
             none_or_trimmed (BrowserWorker.result_dict q a !! "answer")).
  { intros q a Ht. unfold BrowserWorker.result_dict.
    rewrite lookup_insert_ne by discriminate. rewrite lookup_insert_eq.
    destruct a; [right; eauto | now left]. }
  unfold BrowserWorker.extract.
  destruct (BrowserWorker.driver_get s) as [[] | e]; [| discriminate].
  destruct (BrowserWorker.question_el s) as [[tq | eq] |];
    destruct (BrowserWorker.answer_el s) as [[ta | ea] |];
    try destruct (is_Exception _) eqn:Ex;
    intros H; inversion H; subst d ls; clear H;
    (split; [apply Hd |]);
    (split; [apply Hq; try exact I; apply strip_trimmed |]);
    (split; [apply Ha; try exact I; apply strip_trimmed |]);
    first [ exists [], (BrowserWorker.extracted_log s u
                          (match BrowserWorker.question_el s with _ => None end) None);
            split; reflexivity
          | eexists [_], _; split; reflexivity
          | eexists [], _; split; reflexivity ].
Qed.




End StageFacts.

(** ** More on the loop body *)

Section BodyFacts.
Import Run Trace More.

Lemma fetch_doc_cases (w : Fetcher.world) (task : FetchTask) (doc : PageDocument) ls :
  Fetcher.fetch w task = (Return doc, ls) ->
  (exists r, Fetcher.get w = Return r /\ ls = [] /\
     doc = list_to_map
             [ ("_id", VStr (str_or (id task) (hex (Fetcher.os_urandom w 8))));
               ("url", VStr (url task));
               ("status_code", VInt (Fetcher.status_code r));
               ("fetched_at", VStr (Fetcher.gmtime w));
               ("latency_ms", VFloat (round2 (Fetcher.latency_ms w)));
               ("content_length", VInt (Z.of_nat (length (Fetcher.content r))));
               ("html", VStr (Fetcher.text r));
               ("error", VNone);
               ("meta", VDict [("priority", of_opt_int (priority task))]) ])
  \/ (exists e, Fetcher.get w = Raise e /\ is_Exception (exc_cls e) = true /\
        ls = [ LogEntry ERROR "fetch_failed"
                 [("url", VStr (url task)); ("error", VStr (exc_str e))] ] /\
        doc = list_to_map
                [ ("_id", VStr (str_or (id task) (hex (Fetcher.os_urandom w 8))));
                  ("url", VStr (url task));
                  ("status_code", VNone);
                  ("fetched_at", VStr (Fetcher.gmtime w));
                  ("latency_ms", VFloat (round2 (Fetcher.latency_ms w)));
                  ("content_length", VInt 0);
                  ("html", VNone);
                  ("error", VStr (exc_str e));
                  ("meta", VDict [("priority", of_opt_int (priority task))]) ]).
Proof.
  unfold Fetcher.fetch.
  destruct (Fetcher.get w) as [r | e]; [| destruct (is_Exception _) eqn:E];
    intros H; [left | right | discriminate H].
  - exists r. split; [reflexivity |].
    split; [now inversion H |].
    symmetry. exact (f_equal (fun p => match fst p with Return d => d | Raise _ => doc end) H).
  - exists e. split; [reflexivity |]. split; [exact E |].
    split; [now inversion H |].
    symmetry. exact (f_equal (fun p => match fst p with Return d => d | Raise _ => doc end) H).
Qed.

Lemma extraction_skipped (w : Fetcher.world) (task : FetchTask)
    (browser : bool) (b : BrowserWorker.session) (doc : PageDocument) ls :
  Fetcher.fetch w task = (Return doc, ls) ->
  browser = false \/ (exists e, Fetcher.get w = Raise e) ->
  extraction browser b doc = (Return doc, []).
Proof.
  intros H [-> | [e He]]; [reflexivity |].
  unfold extraction.
  apply fetch_doc_cases in H as [(r & Hr & _) | (e' & _ & _ & _ & ->)]; [congruence |].
  now rewrite andb_false_r.
Qed.



(** X13.  The extraction step adds fields and never removes or changes a
    fetched one: every key other than question and answer keeps its value,
    and the record either is the fetched one or has gained exactly the two
    keys, each [None] or a stripped string. *)
Theorem extraction_keeps_fetched_fields (browser : bool) (b : BrowserWorker.session)
    (doc doc' : PageDocument) ls :
  extraction browser b doc = (Return doc', ls) ->
  (forall k, fetched_key k -> doc' !! k = doc !! k) /\
  (doc' = doc
   \/ (dom doc' = {[ "question"; "answer" ]} ∪ dom doc
       /\ none_or_trimmed (doc' !! "question")
       /\ none_or_trimmed (doc' !! "answer"))).
Proof.
  unfold extraction. intros H.
  destruct (_ && _ && _); [| inversion H; subst; split; [reflexivity | now left]].
  destruct (BrowserWorker.extract b (doc_url doc)) as [[d | e] ls0] eqn:E.
  - pose proof (extract_returns b (doc_url doc) d ls0 E) as Ho.
    pose proof E as Es. apply extract_shape in Es as (q & a & ->).
    inversion H; subst; clear H. destruct Ho as (Hd & Hq & Ha & _).
    split.
    + intros k [Hkq Hka]. now apply update_other.
    + right. unfold update. rewrite dom_union_L, Hd.
      split; [reflexivity |].
      unfold BrowserWorker.result_dict in *.
      rewrite !lookup_union_l'; auto;
        rewrite ?lookup_insert_eq, ?lookup_insert_ne, ?lookup_insert_eq by discriminate;
        eauto.
  - destruct (is_Exception _); inversion H; subst.
    split; [reflexivity | now left].
Qed.

Lemma extraction_keeps_fetched_fields_witness :
  exists fetched page_doc ls,
    fst (Fetcher.fetch Examples.w_ok Examples.task_quora) = Return fetched /\
    extraction true Examples.quiet_browser fetched = (Return page_doc, ls) /\
    page_doc !! "html" = fetched !! "html".
Proof.
  do 3 eexists. split; [reflexivity |]. split; [reflexivity |].
  match goal with
  | |- ?pd !! _ = ?f !! _ =>
      refine (proj1 (extraction_keeps_fetched_fields true Examples.quiet_browser f pd _ _)
                "html" _)
  end; [reflexivity | split; discriminate].
Defined.



End BodyFacts.

(** ** More on the run *)

Section RunMore.
Import KafkaConsumerWrapper Run Trace More Exit.
Context {payload : Type}.
Variable json_loads : list byte -> result payload.
Variable FetchTask_validate : payload -> result FetchTask.

Local Abbreviation step := (step json_loads FetchTask_validate).
Local Abbreviation steps := (steps json_loads FetchTask_validate).
Local Abbreviation get_tasks_live := (get_tasks_live json_loads FetchTask_validate).
Local Abbreviation valid_task := (valid_task json_loads FetchTask_validate).
Local Abbreviation complaint := (complaint json_loads FetchTask_validate).
Local Abbreviation ordinary := (ordinary json_loads FetchTask_validate).

Lemma step_task_done (st : state) (task : FetchTask) w b d :
  now st = InFlight task ->
  step st (TaskDone w b d)
  = let '(os, store', r) := process st task w b d in
    match r with
    | Raise e => finish (Raise e) (left st task os store')
    | Return _ =>
        if shutdown_event st then finish (Return 0) (left st task os store')
        else pull (left st task os store')
    end.
Proof.
  intros Hnow. unfold Run.step. rewrite Hnow.
  destruct (process st task w b d) as [[os store'] r]. reflexivity.
Qed.

Lemma steps_invariant_step (Inv : state -> Prop) :
  (forall st ev, Inv st -> Inv (step st ev)) ->
  forall evs st, Inv st -> Inv (steps st evs).
Proof.
  intros Hpres. induction evs as [| ev evs IH]; intros st Hst; [exact Hst |].
  unfold Run.steps in *. cbn [fold_left]. apply IH, Hpres, Hst.
Qed.

Lemma steps_cons (st : state) (ev : event) (evs : list event) :
  steps st (ev :: evs) = steps (step st ev) evs.
Proof. reflexivity. Qed.


(** X16.  A [CancelledError] out of [getone()] ends the generator without
    an error: what was yielded and logged before stands, and nothing
    delivered after it is read.  Any other exception of [getone()] leaves
    the generator as it is raised. *)
Theorem getone_failure_ends_sequence (msgs : list message) (e : exn)
    (later : list (result message)) :
  Forall ordinary msgs ->
  get_tasks_live (map Return msgs ++ Raise e :: later)%list
  = (omap valid_task msgs, omap complaint msgs,
     match exc_cls e with CancelledError => Returned | _ => Thrown e end).
Proof.
  induction 1 as [| m msgs Hm _ IH].
  - cbn. unfold outer_handler. destruct (exc_cls e); reflexivity.
  - cbn [map app KafkaConsumerWrapper.get_tasks_live]. rewrite !omap_step.
    unfold Trace.valid_task at 1, Trace.complaint at 1.
    destruct (deserialize json_loads FetchTask_validate m) as [task | e'] eqn:E.
    + rewrite (on_getone_valid json_loads FetchTask_validate m task E), IH. reflexivity.
    + rewrite (on_getone_malformed json_loads FetchTask_validate m e' E (Hm e' E)), IH.
      reflexivity.
Qed.

Lemma logged_app (name : string) (a c : list obs) :
  logged name (a ++ c)%list = (logged name a ++ logged name c)%list.
Proof.
  induction a as [| o a IH]; [reflexivity |].
  destruct o; cbn [logged app]; rewrite ?IH; try reflexivity.
  destruct (String.eqb _ _); reflexivity.
Qed.

Lemma not_logged (name : string) (xs : list log_entry) :
  Forall (fun l => log_event l <> name) xs -> logged name (map Log xs) = [].
Proof.
  induction 1 as [| x xs Hx _ IH]; [reflexivity |]. cbn [map logged].
  destruct (String.eqb_spec (log_event x) name); [contradiction | exact IH].
Qed.

Lemma extract_logs (b : BrowserWorker.session) (u : string) :
  Forall (fun l => log_event l <> "task_processed") (snd (BrowserWorker.extract b u)).
Proof.
  unfold BrowserWorker.extract.
  destruct (BrowserWorker.driver_get b) as [[] | e0]; [| constructor].
  destruct (BrowserWorker.question_el b) as [[tq | eq] |];
    destruct (BrowserWorker.answer_el b) as [[ta | ea] |];
    try destruct (is_Exception _); cbn [snd];
    repeat first [apply List.Forall_nil | apply List.Forall_cons; [discriminate |]].
Qed.

Lemma extraction_logs (browser : bool) (b : BrowserWorker.session) (doc : PageDocument) :
  Forall (fun l => log_event l <> "task_processed") (snd (extraction browser b doc)).
Proof.
  unfold extraction. destruct (_ && _ && _); [| constructor].
  pose proof (extract_logs b (doc_url doc)) as Hl.
  destruct (BrowserWorker.extract b (doc_url doc)) as [[d | e] ls0]; cbn [snd] in *;
    [exact Hl |].
  destruct (is_Exception _); cbn [snd]; [| exact Hl].
  apply Forall_app. split; [exact Hl |].
  apply List.Forall_cons; [discriminate | constructor].
Qed.

Lemma trace_finish_left (st : state) task os store' r :
  trace (finish r (left st task os store'))
  = (trace st ++ os ++ [Leave task] ++ cleanup st)%list.
Proof.
  cbn [trace finish left emit set_now set_store]. rewrite cleanup_left.
  now rewrite <- !app_assoc.
Qed.

Lemma process_store (st : state) (task : FetchTask) w b d :
  let '(os, store', r) := process st task w b d in
  (store' = store st /\
   (persisted os = []
    \/ exists doc, persisted os = [doc] /\
                   (MongoStore.collection (store st) = None \/ exists e, d = Raise e)))
  \/ (exists docs doc,
        MongoStore.collection (store st) = Some docs /\
        store' = MongoStore.mk (Some (docs ++ [doc])%list) /\
        persisted os = [doc] /\ r = Return tt).
Proof.
  unfold process.
  destruct (Fetcher.fetch w task) as [[fetched | e] ls].
  2:{ left. split; [reflexivity |]. left. apply persisted_logs. }
  destruct (extraction _ b fetched) as [[page_doc | e] ls'].
  2:{ left. split; [reflexivity |]. left. now rewrite persisted_app, !persisted_logs. }
  unfold MongoStore.save_page.
  destruct (MongoStore.collection (store st)) as [docs |] eqn:Ec.
  - destruct d as [[] | e].
    + right. exists docs, page_doc. repeat split.
      now rewrite !persisted_app, !persisted_logs.
    + left. split; [reflexivity |]. right. exists page_doc.
      split; [now rewrite !persisted_app, !persisted_logs | right; eauto].
  - left. split; [reflexivity |]. right. exists page_doc.
    split; [now rewrite !persisted_app, !persisted_logs | now left].
Qed.

Lemma persisted_cleanup (st : state) : persisted (cleanup st) = [].
Proof. now destruct (cleanup_benign_like st) as (_ & H & _). Qed.

Lemma pull_effect (st : state) :
  exists os, trace (pull st) = (trace st ++ os)%list /\ persisted os = []
             /\ store (pull st) = store st.
Proof.
  destruct (pull_cases st) as [[_ ->] | [[_ [_ ->]] | (u & rest & _ & _ & ->)]].
  - exists []. cbn. now rewrite app_nil_r.
  - exists []. cbn. now rewrite app_nil_r.
  - eexists [_]. cbn. repeat split.
Qed.

(** what one step adds to the trace and does to the store *)
Lemma step_effect (st : state) (ev : event) :
  exists os,
    trace (step st ev) = (trace st ++ os)%list /\
    ((store (step st ev) = store st /\
      (persisted os = []
       \/ exists doc, persisted os = [doc] /\
                      (MongoStore.collection (store st) = None \/ ~ driver_answers ev)))
     \/ (exists docs doc,
           MongoStore.collection (store st) = Some docs /\
           store (step st ev) = MongoStore.mk (Some (docs ++ [doc])%list) /\
           persisted os = [doc])).
Proof.
  assert (Hsame : exists os, trace st = (trace st ++ os)%list /\
            ((store st = store st /\
              (persisted os = []
               \/ exists doc, persisted os = [doc] /\
                    (MongoStore.collection (store st) = None \/ ~ driver_answers ev)))
             \/ (exists docs doc,
                   MongoStore.collection (store st) = Some docs /\
                   store st = MongoStore.mk (Some (docs ++ [doc])%list) /\
                   persisted os = [doc]))).
  { exists []. rewrite app_nil_r. split; [reflexivity |]. left. split; [reflexivity | now left]. }
  assert (Hquiet : forall os st', trace st' = (trace st ++ os)%list -> store st' = store st ->
            persisted os = [] ->
            exists os, trace st' = (trace st ++ os)%list /\
            ((store st' = store st /\
              (persisted os = []
               \/ exists doc, persisted os = [doc] /\
                    (MongoStore.collection (store st) = None \/ ~ driver_answers ev)))
             \/ (exists docs doc,
                   MongoStore.collection (store st) = Some docs /\
                   store st' = MongoStore.mk (Some (docs ++ [doc])%list) /\
                   persisted os = [doc]))).
  { intros os st' Ht Hs Hp. exists os. split; [exact Ht |]. left. split; [exact Hs | now left]. }
  unfold Run.step.
  destruct (now st) eqn:Hnow; destruct ev; try exact Hsame;
    try (eapply Hquiet; [reflexivity | reflexivity | reflexivity]).
  - destruct (on_getone _ _ r).
    + eapply Hquiet; [reflexivity | reflexivity | reflexivity].
    + eapply Hquiet; [reflexivity | reflexivity | reflexivity].
    + eapply Hquiet; [reflexivity | reflexivity | apply persisted_cleanup].
    + eapply Hquiet; [reflexivity | reflexivity | apply persisted_cleanup].
  - eapply Hquiet; [reflexivity | reflexivity | apply persisted_cleanup].
  - pose proof (process_store st task w b s) as Hp.
    destruct (process st task w b s) as [[os store'] r].
    set (st1 := emit (os ++ [Leave task])%list (set_store store' st)).
    assert (H1 : trace st1 = (trace st ++ os ++ [Leave task])%list) by reflexivity.
    assert (H1s : store st1 = store') by reflexivity.
    assert (Hfin : exists os2 st2,
               st2 = match r with
                     | Return _ => if shutdown_event st1 then finish (Return 0) st1 else pull st1
                     | Raise e => finish (Raise e) st1
                     end
               /\ trace st2 = (trace st1 ++ os2)%list /\ persisted os2 = []
               /\ store st2 = store st1).
    { destruct r as [u | e]; [destruct (shutdown_event st1) |].
      - exists (cleanup st1). eexists. split; [reflexivity |].
        split; [reflexivity | split; [apply persisted_cleanup | reflexivity]].
      - destruct (pull_effect st1) as (os2 & Ht & Hp2 & Hs2).
        exists os2. eexists. split; [reflexivity |]. auto.
      - exists (cleanup st1). eexists. split; [reflexivity |].
        split; [reflexivity | split; [apply persisted_cleanup | reflexivity]]. }
    destruct Hfin as (os2 & st2 & Hst2 & Ht2 & Hp2 & Hs2). rewrite <- Hst2.
    exists ((os ++ [Leave task]) ++ os2)%list.
    split; [now rewrite Ht2, H1, !app_assoc |].
    rewrite !persisted_app, Hp2. cbn [persisted]. rewrite !app_nil_r.
    rewrite Hs2, H1s.
    destruct Hp as [[-> Hp] | (docs & doc & Hc & -> & Hp & _)].
    + left. split; [reflexivity |].
      destruct Hp as [Hp | (doc & Hp & [Hn | [e ->]])]; [now left | right ..].
      * exists doc. split; [exact Hp | now left].
      * exists doc. split; [exact Hp | right]. simpl. tauto.
    + right. exists docs, doc. auto.
Qed.

Lemma Forall_of_sublist {A} (P : A -> Prop) (l k : list A) :
  l `sublist_of` k -> Forall P k -> Forall P l.
Proof.
  induction 1 as [| x l k _ IH | x l k _ IH]; intros Hk.
  - constructor.
  - inversion Hk; subst. constructor; auto.
  - inversion Hk; subst. auto.
Qed.

Lemma start_store (s : startup) (st : state) :
  start s = Return st ->
  (MongoStore.collection (store st) = None \/ MongoStore.collection (store st) = Some [])
  /\ persisted (trace st) = [].
Proof.
  intros Hs.
  assert (Hp : persisted (trace st) = []).
  { apply start_shape in Hs as (c & store0 & ls & _ & ->).
    destruct (pull_effect (mkState c (aiokafka s) sample_urls (selenium s) store0 false
                             AwaitingGetone (map Log ls))) as (os & -> & Ho & _).
    cbn [trace]. now rewrite persisted_app, persisted_logs, Ho. }
  split; [| exact Hp].
  unfold start in Hs.
  destruct (Config_load (env s)) as [c | e]; [| discriminate].
  destruct (if selenium s then chrome s else Return tt); [| discriminate].
  assert (Hi : MongoStore.collection (fst (MongoStore.init c (motor s))) = None
               \/ MongoStore.collection (fst (MongoStore.init c (motor s))) = Some []).
  { unfold MongoStore.init. destruct (_ && _); simpl; auto. }
  destruct (MongoStore.init c (motor s)) as [store0 ls]. cbn [fst] in Hi.
  destruct (aiokafka s); [destruct (broker s); [| discriminate] |];
    injection Hs as <-;
    match goal with
    | |- context [pull ?x] =>
        destruct (pull_effect x) as (_ & _ & _ & ->)
    end; exact Hi.
Qed.

Lemma stored_sublist (evs : list event) (st : state) :
  (forall docs, MongoStore.collection (store st) = Some docs ->
                docs `sublist_of` persisted (trace st)) ->
  forall docs, MongoStore.collection (store (steps st evs)) = Some docs ->
               docs `sublist_of` persisted (trace (steps st evs)).
Proof.
  apply (steps_invariant_step
           (fun x => forall docs, MongoStore.collection (store x) = Some docs ->
                                  docs `sublist_of` persisted (trace x))).
  clear. intros st ev Hst docs Hd.
  destruct (step_effect st ev) as (os & Ht & [[Hs Hp] | (docs0 & doc & Hc & Hs & Hp)]);
    rewrite Ht, persisted_app.
  - rewrite Hs in Hd. apply sublist_inserts_r, Hst, Hd.
  - rewrite Hs in Hd. injection Hd as <-. rewrite Hp.
    apply sublist_app; [apply Hst, Hc | reflexivity].
Qed.

Lemma stored_exactly (evs : list event) (st : state) :
  Forall driver_answers evs ->
  (forall docs, MongoStore.collection (store st) = Some docs ->
                docs = persisted (trace st)) ->
  forall docs, MongoStore.collection (store (steps st evs)) = Some docs ->
               docs = persisted (trace (steps st evs)).
Proof.
  intros Hev. revert st. induction Hev as [| ev evs Hd _ IH]; intros st Hst; [exact Hst |].
  rewrite steps_cons. apply IH. intros docs Hdocs.
  destruct (step_effect st ev) as (os & Ht & [[Hs Hp] | (docs0 & doc & Hc & Hs & Hp)]);
    rewrite Ht, persisted_app.
  - rewrite Hs in Hdocs. rewrite (Hst docs Hdocs).
    destruct Hp as [-> | (doc & _ & [Hn | Hn])].
    + now rewrite app_nil_r.
    + congruence.
    + contradiction.
  - rewrite Hs in Hdocs. injection Hdocs as <-. now rewrite Hp, (Hst docs0 Hc).
Qed.

Lemma store_mode (evs : list event) (st : state) :
  (MongoStore.collection (store (steps st evs)) = None
   <-> MongoStore.collection (store st) = None).
Proof.
  apply (steps_invariant_step
           (fun x => MongoStore.collection (store x) = None
                     <-> MongoStore.collection (store st) = None)); [| tauto].
  clear evs. intros x ev Hx.
  destruct (step_effect x ev) as (os & _ & [[Hs _] | (docs0 & doc & Hc & Hs & _)]);
    rewrite Hs; [exact Hx |].
  rewrite <- Hx, Hc. simpl. split; discriminate.
Qed.




Lemma steps_exited (evs : list event) (st : state) (r : result Z) :
  now st = Exited r -> steps st evs = st.
Proof.
  intros Hr. induction evs as [| ev evs IH]; [reflexivity |].
  rewrite steps_cons. unfold Run.step. rewrite Hr. exact IH.
Qed.

Lemma now_pull (st : state) : forall r, now (pull st) <> Exited r.
Proof.
  intros r. destruct (pull_cases st) as [[_ ->] | [[_ [_ ->]] | (u & rest & _ & _ & ->)]];
    discriminate.
Qed.

Lemma step_exit_zero (st : state) (ev : event) :
  (forall z, now st = Exited (Return z) -> z = 0) ->
  forall z, now (step st ev) = Exited (Return z) -> z = 0.
Proof.
  intros Hst z. unfold Run.step.
  destruct (now st) eqn:Hnow; destruct ev; cbn [now set_shutdown emit];
    rewrite ?Hnow; try discriminate; try (intros H; apply Hst; exact H).
  - destruct (on_getone _ _ r); cbn [now take_up finish emit set_now]; intros H;
      first [congruence | inversion H; reflexivity].
  - cbn. intros H. inversion H. reflexivity.
  - destruct (process st task w b s) as [[os store'] [u | e]].
    + change (shutdown_event (emit (os ++ [Leave task])%list (set_store store' st)))
        with (shutdown_event st).
      destruct (shutdown_event st).
      * cbn. intros H. inversion H. reflexivity.
      * intros H. exfalso. exact (now_pull _ _ H).
    + cbn. discriminate.
Qed.


Lemma process_settles (st : state) (task : FetchTask) w b d :
  fetch_settles w ->
  (browser_worker st = false \/ exists e, Fetcher.get w = Raise e) ->
  (MongoStore.collection (store st) = None \/ d = Return tt) ->
  exists doc ls store',
    Fetcher.fetch w task = (Return doc, ls) /\
    process st task w b d
    = ((map Log ls ++ [Persist doc; Log (task_processed_line doc)])%list, store', Return tt) /\
    (MongoStore.collection (store st) = None -> store' = store st).
Proof.
  intros Hw Hb Hd.
  assert (Hf : exists doc ls, Fetcher.fetch w task = (Return doc, ls)).
  { unfold fetch_settles in Hw. unfold Fetcher.fetch.
    destruct (Fetcher.get w); [| rewrite Hw]; eauto. }
  destruct Hf as (doc & ls & Hf). exists doc, ls.
  assert (Hx : extraction (browser_worker st) b doc = (Return doc, [])).
  { exact (extraction_skipped w task (browser_worker st) b doc ls Hf Hb). }
  unfold process. rewrite Hf, Hx. unfold MongoStore.save_page.
  destruct (MongoStore.collection (store st)) as [docs |] eqn:Ec.
  - destruct Hd as [Hd | ->]; [discriminate |].
    eexists. split; [reflexivity |]. split; [reflexivity | discriminate].
  - eexists. split; [reflexivity |]. split; [reflexivity | reflexivity].
Qed.

Lemma fetch_not_task_processed (w : Fetcher.world) (task : FetchTask) r ls :
  Fetcher.fetch w task = (r, ls) -> logged "task_processed" (map Log ls) = [].
Proof.
  unfold Fetcher.fetch.
  destruct (Fetcher.get w); [| destruct (is_Exception _)]; intros H; inversion H; reflexivity.
Qed.


Lemma entered_logs (ls : list log_entry) : entered (map Log ls) = [].
Proof. induction ls; simpl; auto. Qed.

Lemma closes_logs (ls : list log_entry) : closes (map Log ls) = [].
Proof. induction ls; simpl; auto. Qed.


Lemma trace_grows (evs : list event) (st : state) :
  exists ext, trace (steps st evs) = (trace st ++ ext)%list.
Proof.
  revert st. induction evs as [| ev evs IH]; intros st.
  - exists []. cbn. now rewrite app_nil_r.
  - rewrite steps_cons. destruct (IH (step st ev)) as (ext & ->).
    destruct (step_effect st ev) as (os & -> & _).
    exists (os ++ ext)%list. now rewrite app_assoc.
Qed.

Lemma cfg_steps (evs : list event) (st : state) : cfg (steps st evs) = cfg st.
Proof.
  pose proof (steps_set_cfg json_loads FetchTask_validate (cfg st) evs st) as H.
  assert (Hst : set_cfg (cfg st) st = st) by (destruct st; reflexivity).
  rewrite Hst in H. rewrite H. reflexivity.
Qed.


End RunMore.

(** ** Leaving [run] *)

Section ExitFacts.
Import Run Trace Exit.





End ExitFacts.

(** ** The further properties at concrete inputs *)

Section ConcreteMore.
Import KafkaConsumerWrapper Run Trace More Exit Examples.

Lemma five_messages_ordinary :
  Forall (ordinary toy_loads toy_validate) Samples.five_messages.
Proof.
  repeat constructor; intros e H; vm_compute in H;
    first [discriminate H | injection H as <-; reflexivity].
Defined.


Lemma getone_failure_ends_sequence_witness :
  get_tasks_live toy_loads toy_validate
    (map Return Samples.five_messages ++ [Raise (Exn CancelledError ""); Return msg_good])%list
  = ([task_quora; task_quora],
     omap (complaint toy_loads toy_validate) Samples.five_messages, Returned).
Proof.
  exact (getone_failure_ends_sequence toy_loads toy_validate Samples.five_messages
           (Exn CancelledError "") [Return msg_good] five_messages_ordinary).
Defined.

Lemma field_none_iff_no_match_witness :
  selected (Parser.BeautifulSoup scenario_html) Parser.QUESTION_SELECTOR <> [].
Proof.
  intros H.
  apply (proj2 (proj1 (field_none_iff_no_match scenario_html))) in H.
  vm_compute in H. discriminate H.
Defined.








End ConcreteMore.
